(** * Student Finance Manager: the ledger of [script.js], embedded in Rocq

    The browser program keeps one record (allowance, goal, expenses), persists
    it as JSON text under one key of [localStorage], and derives a dashboard
    from it.  This file embeds the logic of [script.js] function by function
    and proves the properties of its specification.

    Modelling conventions.
    - A JavaScript number is a [num]: [NaN], an infinity, or a finite value.
      Finite values are exact rationals ([Qc]); the rounding of binary64 is
      not modelled, and the negative zero is identified with zero.
    - A JavaScript string is a [string]; its characters are the bytes of the
      text (UTF-8).
    - A [Date] is its time value, milliseconds since the epoch, or invalid.
      Local time is the time value shifted by a fixed offset [tza] (no
      daylight saving); the calendar functions are those of ECMA-262 (Day,
      DayFromYear, YearFromTime, MonthFromTime, DateFromTime, MakeDay).  The
      range limit of time values (TimeClip) is not modelled.
    - The clock is read once per event: the several [new Date()] of one
      handler all give the instant [now].
    - The record has the types of the data model: numbers and strings.  Where
      the program would hold a value of another type (from a stored text
      written by something else), [loadData] ends in [IllTyped].
    - The DOM is not modelled: a function that writes the page returns the
      values it writes, amounts as numbers and not as formatted text.
      [localStorage] accepts every write. *)

From Stdlib Require Import ZArith QArith Qcanon Qround Lia Bool List String Ascii.
From Stdlib Require Import Sorted Permutation.
From Stdlib Require Import Lqa.
Import ListNotations.

Ltac Zify.zify_post_hook ::= Z.div_mod_to_equations.

(** ** JavaScript numbers *)

Module JsNum.

Inductive num : Type :=
| NaN
| Inf (negative : bool)
| Fin (q : Qc).

Definition of_Z (z : Z) : num := Fin (Q2Qc (inject_Z z)).

Definition zero : num := of_Z 0.
Definition hundred : num := of_Z 100.
Definition half : num := Fin (Q2Qc (1 # 2)).

Definition Qc_sign_neg (q : Qc) : bool :=
  match (q ?= 0)%Qc with Lt => true | _ => false end.

Definition Qc_is_zero (q : Qc) : bool :=
  match (q ?= 0)%Qc with Eq => true | _ => false end.

Definition neg (x : num) : num :=
  match x with
  | NaN => NaN
  | Inf s => Inf (negb s)
  | Fin q => Fin (- q)%Qc
  end.

(** [x + y] *)
Definition add (x y : num) : num :=
  match x, y with
  | NaN, _ | _, NaN => NaN
  | Inf a, Inf b => if Bool.eqb a b then Inf a else NaN
  | Inf a, Fin _ => Inf a
  | Fin _, Inf b => Inf b
  | Fin p, Fin q => Fin (p + q)%Qc
  end.

(** [x - y] *)
Definition sub (x y : num) : num := add x (neg y).

(** [x * y] *)
Definition mul (x y : num) : num :=
  match x, y with
  | NaN, _ | _, NaN => NaN
  | Inf a, Inf b => Inf (xorb a b)
  | Inf a, Fin q | Fin q, Inf a =>
      if Qc_is_zero q then NaN else Inf (xorb a (Qc_sign_neg q))
  | Fin p, Fin q => Fin (p * q)%Qc
  end.

(** [x / y] *)
Definition div (x y : num) : num :=
  match x, y with
  | NaN, _ | _, NaN => NaN
  | Inf _, Inf _ => NaN
  | Inf a, Fin q => Inf (xorb a (Qc_sign_neg q))
  | Fin _, Inf _ => zero
  | Fin p, Fin q =>
      if Qc_is_zero q
      then (if Qc_is_zero p then NaN else Inf (Qc_sign_neg p))
      else Fin (p / q)%Qc
  end.

(** The comparison of two numbers; [None] when one of them is [NaN]. *)
Definition cmp (x y : num) : option comparison :=
  match x, y with
  | NaN, _ | _, NaN => None
  | Inf a, Inf b =>
      Some (if Bool.eqb a b then Eq else if a then Lt else Gt)
  | Inf a, Fin _ => Some (if a then Lt else Gt)
  | Fin _, Inf b => Some (if b then Gt else Lt)
  | Fin p, Fin q => Some (p ?= q)%Qc
  end.

(** [x < y] *)
Definition ltb (x y : num) : bool :=
  match cmp x y with Some Lt => true | _ => false end.

(** [x > y] *)
Definition gtb (x y : num) : bool :=
  match cmp x y with Some Gt => true | _ => false end.

(** [x <= y] *)
Definition leb (x y : num) : bool :=
  match cmp x y with Some Lt | Some Eq => true | _ => false end.

(** [x >= y] *)
Definition geb (x y : num) : bool :=
  match cmp x y with Some Gt | Some Eq => true | _ => false end.

(** [x === y] on numbers *)
Definition eqb (x y : num) : bool :=
  match cmp x y with Some Eq => true | _ => false end.

(** ToBoolean on a number: [0] and [NaN] are falsy. *)
Definition truthy (x : num) : bool :=
  match x with
  | NaN => false
  | Inf _ => true
  | Fin q => negb (Qc_is_zero q)
  end.

Definition is_finite (x : num) : bool :=
  match x with Fin _ => true | _ => false end.

(** [Math.max(x, y)] *)
Definition Math_max (x y : num) : num :=
  match cmp x y with
  | None => NaN
  | Some Lt => y
  | Some _ => x
  end.

(** [Math.min(x, y)] *)
Definition Math_min (x y : num) : num :=
  match cmp x y with
  | None => NaN
  | Some Gt => y
  | Some _ => x
  end.

(** [Math.round(x)]: the integer nearest to [x], halves upwards. *)
Definition Math_round (x : num) : num :=
  match x with
  | Fin q => of_Z (Qfloor (q + Q2Qc (1 # 2))%Qc)
  | _ => x
  end.

(** *** Facts about the comparisons *)

Lemma Fin_inj p q : Fin p = Fin q -> p = q.
Proof. intros H. now inversion H. Qed.

Lemma cmp_antisym x y :
  cmp y x = option_map CompOpp (cmp x y).
Proof.
  destruct x as [| a |p], y as [| b |q]; simpl; try reflexivity.
  - destruct a, b; reflexivity.
  - destruct a; reflexivity.
  - destruct b; reflexivity.
  - f_equal. unfold Qccompare. symmetry. apply Qcompare_antisym.
Qed.

Lemma leb_not_gtb x y : leb x y = true -> gtb x y = false.
Proof. unfold leb, gtb. destruct (cmp x y) as [[]|]; easy. Qed.

Lemma NaN_not_gtb y : gtb NaN y = false.
Proof. reflexivity. Qed.

End JsNum.

(** ** Dates: the calendar of ECMA-262 and the [Date] methods the program calls *)

Module JsDate.

Open Scope Z_scope.

Definition msPerDay : Z := 86400000.

Definition Day (t : Z) : Z := t / msPerDay.
Definition TimeWithinDay (t : Z) : Z := t mod msPerDay.

Definition DaysInYear (y : Z) : Z :=
  if negb (y mod 4 =? 0) then 365
  else if negb (y mod 100 =? 0) then 366
  else if negb (y mod 400 =? 0) then 365
  else 366.

Definition InLeapYear (y : Z) : bool := DaysInYear y =? 366.

(** The day number of the first day of year [y]. *)
Definition DayFromYear (y : Z) : Z :=
  365 * (y - 1970) + (y - 1969) / 4 - (y - 1901) / 100 + (y - 1601) / 400.

(** The largest year whose first day is not after day [d]: an estimate from
    the mean length of a year, then one step up or down. *)
Definition YearFromDay (d : Z) : Z :=
  let y := 1970 + (d * 400) / 146097 in
  if DayFromYear (y + 1) <=? d then y + 1
  else if DayFromYear y <=? d then y
  else y - 1.

Definition YearFromTime (t : Z) : Z := YearFromDay (Day t).

Definition DayWithinYear (d : Z) : Z := d - DayFromYear (YearFromDay d).

(** The number of days of a year before its month [m] (0 = January). *)
Definition MonthStart (leap : bool) (m : Z) : Z :=
  let l := if leap then 1 else 0 in
  match m with
  | 0 => 0
  | 1 => 31
  | 2 => 59 + l
  | 3 => 90 + l
  | 4 => 120 + l
  | 5 => 151 + l
  | 6 => 181 + l
  | 7 => 212 + l
  | 8 => 243 + l
  | 9 => 273 + l
  | 10 => 304 + l
  | 11 => 334 + l
  | _ => 365 + l
  end.

Definition MonthFromDay (d : Z) : Z :=
  let leap := InLeapYear (YearFromDay d) in
  let w := DayWithinYear d in
  if w <? MonthStart leap 1 then 0
  else if w <? MonthStart leap 2 then 1
  else if w <? MonthStart leap 3 then 2
  else if w <? MonthStart leap 4 then 3
  else if w <? MonthStart leap 5 then 4
  else if w <? MonthStart leap 6 then 5
  else if w <? MonthStart leap 7 then 6
  else if w <? MonthStart leap 8 then 7
  else if w <? MonthStart leap 9 then 8
  else if w <? MonthStart leap 10 then 9
  else if w <? MonthStart leap 11 then 10
  else 11.

Definition MonthFromTime (t : Z) : Z := MonthFromDay (Day t).

Definition DateFromDay (d : Z) : Z :=
  DayWithinYear d
  - MonthStart (InLeapYear (YearFromDay d)) (MonthFromDay d) + 1.

Definition DateFromTime (t : Z) : Z := DateFromDay (Day t).

(** The number of days of month [m] (0 = January) of year [y]. *)
Definition DaysInMonth (y m : Z) : Z :=
  MonthStart (InLeapYear y) (m + 1) - MonthStart (InLeapYear y) m.

(** MakeDay: the day number of the [date]-th day of month [month] of [year];
    months outside 0..11 carry into the year, days outside the month carry
    into the neighbouring months. *)
Definition MakeDay (year month date : Z) : Z :=
  let ym := year + month / 12 in
  let mn := month mod 12 in
  DayFromYear ym + MonthStart (InLeapYear ym) mn + date - 1.

(** A [Date] object: its time value, or [None] for an invalid date.  The
    methods below are given on the time value of a valid date. *)
Definition Date : Type := option Z.

Section LocalTime.

(** The offset of local time from UTC, in milliseconds. *)
Variable tza : Z.

Definition LocalTime (t : Z) : Z := t + tza.
Definition UTC (t : Z) : Z := t - tza.

Definition getFullYear (t : Z) : Z := YearFromTime (LocalTime t).
Definition getMonth (t : Z) : Z := MonthFromTime (LocalTime t).
Definition getDate (t : Z) : Z := DateFromTime (LocalTime t).

(** [new Date(year, month, date)]: local midnight of that day; a year from 0
    to 99 stands for 1900 + year. *)
Definition Date_ymd (year month date : Z) : Z :=
  let yr := if (0 <=? year) && (year <=? 99) then 1900 + year else year in
  UTC (MakeDay yr month date * msPerDay).

(** [d.setDate(dt)]: the day of the month of [d] replaced, in local time. *)
Definition setDate (t : Z) (dt : Z) : Z :=
  let l := LocalTime t in
  UTC (MakeDay (YearFromTime l) (MonthFromTime l) dt * msPerDay
       + TimeWithinDay l).

End LocalTime.

(** *** [new Date(string)] for the date-only form YYYY-MM-DD

    The value of a date field has this form and names a day of the calendar;
    it is read as midnight UTC of that day.  Every other string is taken as
    an invalid date here (an engine reads some of them by rules of its
    own). *)

Definition digit (c : ascii) : option Z :=
  let n := Z.of_nat (nat_of_ascii c) in
  if (48 <=? n) && (n <=? 57) then Some (n - 48) else None.

Definition digits2 (a b : ascii) : option Z :=
  match digit a, digit b with
  | Some x, Some y => Some (10 * x + y)
  | _, _ => None
  end.

Definition digits4 (a b c d : ascii) : option Z :=
  match digits2 a b, digits2 c d with
  | Some x, Some y => Some (100 * x + y)
  | _, _ => None
  end.

Definition dash : ascii := "-"%char.

(** The year, month (1 = January) and day that a date-only string names. *)
Definition calendar_date (s : string) : option (Z * Z * Z) :=
  match s with
  | String y1 (String y2 (String y3 (String y4 (String s1
      (String m1 (String m2 (String s2 (String d1 (String d2 EmptyString)))))))))
    =>
      match digits4 y1 y2 y3 y4, digits2 m1 m2, digits2 d1 d2 with
      | Some y, Some m, Some d =>
          if Ascii.eqb s1 dash && Ascii.eqb s2 dash
             && (1 <=? m) && (m <=? 12)
             && (1 <=? d) && (d <=? DaysInMonth y (m - 1))
          then Some (y, m, d)
          else None
      | _, _, _ => None
      end
  | _ => None
  end.

Definition Date_parse (s : string) : Date :=
  match calendar_date s with
  | Some (y, m, d) => Some (MakeDay y (m - 1) d * msPerDay)
  | None => None
  end.

(** *** The calendar is consistent *)

Lemma DayFromYear_succ y : DayFromYear (y + 1) = DayFromYear y + DaysInYear y.
Proof.
  unfold DayFromYear, DaysInYear.
  destruct (Z.eqb_spec (y mod 4) 0); cbn [negb];
    destruct (Z.eqb_spec (y mod 100) 0); cbn [negb];
    destruct (Z.eqb_spec (y mod 400) 0); cbn [negb]; lia.
Qed.

Lemma YearFromDay_spec d :
  DayFromYear (YearFromDay d) <= d < DayFromYear (YearFromDay d + 1).
Proof.
  unfold YearFromDay.
  set (y := 1970 + d * 400 / 146097).
  destruct (Z.leb_spec (DayFromYear (y + 1)) d).
  - split; [lia|]. unfold DayFromYear in *. subst y. lia.
  - destruct (Z.leb_spec (DayFromYear y) d).
    + lia.
    + split; [|replace (y - 1 + 1) with y by lia; lia].
      unfold DayFromYear in *. subst y. lia.
Qed.

Lemma DayFromYear_mono y y' : y <= y' -> DayFromYear y <= DayFromYear y'.
Proof. unfold DayFromYear. lia. Qed.

Lemma YearFromDay_unique d y :
  DayFromYear y <= d < DayFromYear (y + 1) -> YearFromDay d = y.
Proof.
  intros Hy. pose proof (YearFromDay_spec d) as Hs.
  set (z := YearFromDay d) in *.
  destruct (Z.lt_trichotomy z y) as [Hlt|[Heq|Hgt]]; [|exact Heq|].
  - pose proof (DayFromYear_mono (z + 1) y ltac:(lia)). lia.
  - pose proof (DayFromYear_mono (y + 1) z ltac:(lia)). lia.
Qed.

Lemma DaysInYear_cases y : DaysInYear y = 365 \/ DaysInYear y = 366.
Proof.
  unfold DaysInYear.
  destruct (y mod 4 =? 0), (y mod 100 =? 0), (y mod 400 =? 0); simpl; auto.
Qed.

Lemma DayWithinYear_range d :
  0 <= DayWithinYear d < DaysInYear (YearFromDay d).
Proof.
  unfold DayWithinYear. pose proof (YearFromDay_spec d) as H.
  rewrite DayFromYear_succ in H. lia.
Qed.


Lemma InLeapYear_days y :
  DaysInYear y = if InLeapYear y then 366 else 365.
Proof.
  unfold InLeapYear. destruct (DaysInYear_cases y) as [H|H]; rewrite H; reflexivity.
Qed.

Ltac month_cases m :=
  let H := fresh in
  assert (H : m = 0 \/ m = 1 \/ m = 2 \/ m = 3 \/ m = 4 \/ m = 5 \/ m = 6
              \/ m = 7 \/ m = 8 \/ m = 9 \/ m = 10 \/ m = 11) by lia;
  repeat (destruct H as [H|H]; [subst m|]); [..|subst m];
  repeat match goal with
         | |- context [?a + 1] =>
             is_var a; fail 1
         | |- context [Z.pos ?a + 1] =>
             let v := eval compute in (Z.pos a + 1) in
             change (Z.pos a + 1) with v
         | |- context [0 + 1] => change (0 + 1) with 1
         | H' : context [Z.pos ?a + 1] |- _ =>
             let v := eval compute in (Z.pos a + 1) in
             change (Z.pos a + 1) with v in H'
         | H' : context [0 + 1] |- _ => change (0 + 1) with 1 in H'
         end;
  cbn [MonthStart] in *.

Lemma MonthFromDay_spec d :
  let leap := InLeapYear (YearFromDay d) in
  0 <= MonthFromDay d <= 11
  /\ MonthStart leap (MonthFromDay d) <= DayWithinYear d
     < MonthStart leap (MonthFromDay d + 1).
Proof.
  intros leap. pose proof (DayWithinYear_range d) as Hw.
  rewrite InLeapYear_days in Hw. fold leap in Hw.
  unfold MonthFromDay. fold leap.
  set (w := DayWithinYear d) in *. clearbody w.
  destruct leap; cbn [MonthStart];
    repeat match goal with
           | |- context [?a <? ?b] => destruct (Z.ltb_spec a b)
           end; cbn; lia.
Qed.

Lemma DateFromDay_range d :
  1 <= DateFromDay d <= DaysInMonth (YearFromDay d) (MonthFromDay d).
Proof.
  pose proof (MonthFromDay_spec d) as [_ H]. cbv zeta in H.
  unfold DateFromDay, DaysInMonth. lia.
Qed.

(** The day of the month of a day counts from the first of its month. *)
Lemma MakeDay_civil d dt :
  MakeDay (YearFromDay d) (MonthFromDay d) dt = d + (dt - DateFromDay d).
Proof.
  pose proof (MonthFromDay_spec d) as [Hm _]. cbv zeta in Hm.
  unfold MakeDay, DateFromDay, DayWithinYear.
  rewrite (Z.div_small (MonthFromDay d) 12), (Z.mod_small (MonthFromDay d) 12) by lia.
  rewrite Z.add_0_r. lia.
Qed.

Lemma civil_MakeDay y m dt :
  0 <= m <= 11 -> 1 <= dt <= DaysInMonth y m ->
  YearFromDay (MakeDay y m dt) = y
  /\ MonthFromDay (MakeDay y m dt) = m
  /\ DateFromDay (MakeDay y m dt) = dt.
Proof.
  intros Hm Hd.
  assert (Hy : YearFromDay (MakeDay y m dt) = y).
  { apply YearFromDay_unique. rewrite DayFromYear_succ, InLeapYear_days.
    unfold MakeDay, DaysInMonth in *.
    rewrite (Z.div_small m 12), (Z.mod_small m 12), Z.add_0_r by lia.
    month_cases m; destruct (InLeapYear y); lia. }
  assert (Hw : DayWithinYear (MakeDay y m dt)
               = MonthStart (InLeapYear y) m + dt - 1).
  { unfold DayWithinYear. rewrite Hy. unfold MakeDay.
    rewrite (Z.div_small m 12), (Z.mod_small m 12), Z.add_0_r by lia. lia. }
  assert (Hmo : MonthFromDay (MakeDay y m dt) = m).
  { unfold MonthFromDay. rewrite Hy, Hw. unfold DaysInMonth in Hd.
    month_cases m; destruct (InLeapYear y);
      repeat match goal with
             | |- context [?a <? ?b] => destruct (Z.ltb_spec a b)
             end; lia. }
  repeat split; trivial.
  unfold DateFromDay. rewrite Hy, Hw, Hmo. lia.
Qed.

(** Day 0 of the next month is the last day of the month. *)
Lemma MakeDay_last y m :
  0 <= m <= 11 -> MakeDay y (m + 1) 0 = MakeDay y m (DaysInMonth y m).
Proof.
  intros Hm. unfold MakeDay, DaysInMonth.
  rewrite (Z.div_small m 12), (Z.mod_small m 12), !Z.add_0_r by lia.
  destruct (Z.eq_dec m 11) as [->|Hne].
  - change (11 + 1) with 12. change (12 / 12) with 1. change (12 mod 12) with 0.
    rewrite DayFromYear_succ, InLeapYear_days.
    destruct (InLeapYear y), (InLeapYear (y + 1)); cbn [MonthStart]; lia.
  - rewrite (Z.div_small (m + 1) 12), (Z.mod_small (m + 1) 12), Z.add_0_r by lia.
    lia.
Qed.

Lemma DaysInMonth_range y m : 0 <= m <= 11 -> 28 <= DaysInMonth y m <= 31.
Proof.
  intros Hm. unfold DaysInMonth.
  month_cases m; destruct (InLeapYear y); lia.
Qed.


End JsDate.

(** ** Decimal numerals: the digits of [Number::toString], [parseFloat] and JSON *)

Module Numeral.

Import JsNum.
Open Scope Z_scope.

Definition digit_char (d : Z) : ascii := ascii_of_nat (Z.to_nat (48 + d)).

Definition is_digit (c : ascii) : bool :=
  match JsDate.digit c with Some _ => true | None => false end.

(** The value of a list of decimal digits, most significant first. *)
Definition value_of_digits (ds : list Z) : Z :=
  fold_left (fun acc d => 10 * acc + d) ds 0.

(** The decimal digits of [n], pushed in front of [acc]; [fuel] bounds the
    number of digits. *)
Fixpoint digits_aux (fuel : nat) (n : Z) (acc : list Z) : list Z :=
  match fuel with
  | O => acc
  | S f =>
      if n <? 10 then n :: acc
      else digits_aux f (n / 10) (n mod 10 :: acc)
  end.

Definition digits_of (n : Z) : list Z :=
  digits_aux (S (Z.to_nat (Z.log2 n))) n [].

Definition string_of_digits (ds : list Z) : string :=
  string_of_list_ascii (map digit_char ds).

(** The longest run of digits at the head of [s], and what follows it. *)
Fixpoint read_digits (s : string) : list Z * string :=
  match s with
  | String c r =>
      match JsDate.digit c with
      | Some d => let (ds, r') := read_digits r in (d :: ds, r')
      | None => ([], s)
      end
  | EmptyString => ([], s)
  end.

(** An exponent part, [e] or [E], an optional sign and at least one digit;
    [None] when [s] does not start with a complete one. *)
Definition read_exponent (s : string) : option (Z * string) :=
  match s with
  | String c r =>
      if Ascii.eqb c "e" || Ascii.eqb c "E" then
        let (sign, r1) :=
          match r with
          | String c' r' =>
              if Ascii.eqb c' "+" then (1, r')
              else if Ascii.eqb c' "-" then (-1, r')
              else (1, r)
          | EmptyString => (1, r)
          end in
        match read_digits r1 with
        | ([], _) => None
        | (ds, r2) => Some (sign * value_of_digits ds, r2)
        end
      else None
  | EmptyString => None
  end.

(** The number [m * 10^e], negated when [negative]. *)
Definition scale (negative : bool) (m e : Z) : Qc :=
  let q := if 0 <=? e then inject_Z (m * 10 ^ e)
           else Qmake m (Z.to_pos (10 ^ (- e))) in
  Q2Qc (if negative then Qopp q else q).

(** The least [k] below [fuel] with [d] dividing [10^(k0 + k)]. *)
Fixpoint decimal_places (fuel : nat) (d : Z) (k : Z) : option Z :=
  if (10 ^ k) mod d =? 0 then Some k
  else match fuel with
       | O => None
       | S f => decimal_places f d (k + 1)
       end.

(** Whether the rational [q] has a finite decimal expansion, and with how
    many decimal places. *)
Definition places (q : Qc) : option Z :=
  let d := Zpos (Qden q) in
  decimal_places (Z.to_nat (Z.log2 d)) d 0.

(** The text of a finite number: an optional sign, the integer digits, and
    after a point the decimal places when there are any; [None] for a
    rational with no finite decimal expansion.  [Number::toString] writes
    numbers from 1e21 on and under 1e-6 with an exponent; the positional text
    written here reads back as the same number. *)
Definition to_string (q : Qc) : option string :=
  match places q with
  | None => None
  | Some k =>
      let m := Z.abs (Qnum q) * (10 ^ k / Zpos (Qden q)) in
      let ds := digits_of m in
      let pad := repeat 0 (Z.to_nat (k + 1) - List.length ds) in
      let ds := (pad ++ ds)%list in
      let n := (List.length ds - Z.to_nat k)%nat in
      let sign := if Qnum q <? 0 then "-"%string else ""%string in
      Some (sign
            ++ string_of_digits (firstn n ds)
            ++ (if (k =? 0)%Z then "" else "." ++ string_of_digits (skipn n ds)))%string
  end.

(** [parseFloat(s)]: leading white space is skipped, then the longest prefix
    that is a decimal literal is read; [NaN] when there is none.  Only the
    white space of ASCII is modelled. *)
Definition is_space (c : ascii) : bool :=
  let n := nat_of_ascii c in
  Nat.eqb n 32 || ((9 <=? n)%nat && (n <=? 13)%nat).

Fixpoint skip_space (s : string) : string :=
  match s with
  | String c r => if is_space c then skip_space r else s
  | EmptyString => s
  end.

Definition parseFloat (s : string) : num :=
  let s0 := skip_space s in
  let (negative, s1) :=
    match s0 with
    | String "+" r => (false, r)
    | String "-" r => (true, r)
    | _ => (false, s0)
    end in
  if String.prefix "Infinity" s1 then Inf negative
  else
    let (ds, s2) := read_digits s1 in
    let (fs, s3) :=
      match s2 with
      | String "." r => read_digits r
      | _ => ([], s2)
      end in
    match (ds ++ fs)%list with
    | [] => NaN
    | m =>
        let e := match read_exponent s3 with
                 | Some (e, _) => e
                 | None => 0
                 end in
        Fin (scale negative (value_of_digits m) (e - Z.of_nat (List.length fs)))
    end.

End Numeral.

(** ** JSON: the values, [JSON.stringify] and [JSON.parse] *)

Module Json.

Import JsNum.
Open Scope string_scope.

#[local] Set Warnings "-register-all".

Inductive value : Type :=
| JNull
| JBool (b : bool)
| JNum (n : num)
| JStr (s : string)
| JArr (elements : list value)
| JObj (members : list (string * value)).

(** *** [JSON.stringify] *)

Definition quote : ascii := "034"%char.
Definition backslash : ascii := "092"%char.

Definition hex_char (n : Z) : ascii :=
  ascii_of_nat (Z.to_nat (if (n <? 10)%Z then 48 + n else 87 + n)).

(** The letter that follows the backslash in the short escape of [c], when
    it has one. *)
Definition short_escape (c : ascii) : option ascii :=
  let n := Z.of_nat (nat_of_ascii c) in
  if Ascii.eqb c quote then Some quote
  else if Ascii.eqb c backslash then Some backslash
  else if (n =? 8)%Z then Some "b"%char
  else if (n =? 9)%Z then Some "t"%char
  else if (n =? 10)%Z then Some "n"%char
  else if (n =? 12)%Z then Some "f"%char
  else if (n =? 13)%Z then Some "r"%char
  else None.

(** One character of a string, as QuoteJSONString writes it. *)
Definition escape (c : ascii) : string :=
  let n := Z.of_nat (nat_of_ascii c) in
  match short_escape c with
  | Some e => String backslash (String e "")
  | None =>
      if (n <? 32)%Z then
        String backslash
          (String "u" (String "0" (String "0"
             (String (hex_char (n / 16)) (String (hex_char (n mod 16)) "")))))
      else String c ""
  end.

Fixpoint escape_all (s : string) : string :=
  match s with
  | EmptyString => ""
  | String c r => escape c ++ escape_all r
  end.

Definition stringify_string (s : string) : string :=
  String quote (escape_all s ++ String quote "").

(** A number that is not finite is written [null]; so is, in this model, a
    rational with no finite decimal expansion. *)
Definition stringify_num (n : num) : string :=
  match n with
  | Fin q =>
      match Numeral.to_string q with
      | Some s => s
      | None => "null"
      end
  | _ => "null"
  end.

Definition stringify_member (k text : string) : string :=
  stringify_string k ++ ":" ++ text.

Fixpoint stringify (v : value) : string :=
  match v with
  | JNull => "null"
  | JBool true => "true"
  | JBool false => "false"
  | JNum n => stringify_num n
  | JStr s => stringify_string s
  | JArr l => "[" ++ String.concat "," (map stringify l) ++ "]"
  | JObj l =>
      "{" ++ String.concat ","
               (map (fun m => stringify_member (fst m) (stringify (snd m))) l)
          ++ "}"
  end.

(** *** [JSON.parse] *)

Definition is_ws (c : ascii) : bool :=
  let n := nat_of_ascii c in
  Nat.eqb n 32 || Nat.eqb n 9 || Nat.eqb n 10 || Nat.eqb n 13.

Fixpoint skip_ws (s : string) : string :=
  match s with
  | String c r => if is_ws c then skip_ws r else s
  | EmptyString => s
  end.

Definition hex_digit (c : ascii) : option Z :=
  let n := Z.of_nat (nat_of_ascii c) in
  if (48 <=? n)%Z && (n <=? 57)%Z then Some (n - 48)%Z
  else if (97 <=? n)%Z && (n <=? 102)%Z then Some (n - 87)%Z
  else if (65 <=? n)%Z && (n <=? 70)%Z then Some (n - 55)%Z
  else None.

Definition byte (n : Z) : ascii := ascii_of_nat (Z.to_nat n).

(** The bytes of the code unit [u] (UTF-8; a surrogate is written alone). *)
Definition code_unit (u : Z) : string :=
  if (u <? 128)%Z then String (byte u) ""
  else if (u <? 2048)%Z then
    String (byte (192 + u / 64)) (String (byte (128 + u mod 64)) "")
  else
    String (byte (224 + u / 4096))
      (String (byte (128 + (u / 64) mod 64))
         (String (byte (128 + u mod 64)) "")).

Definition hex4 (h1 h2 h3 h4 : ascii) : option Z :=
  match hex_digit h1, hex_digit h2, hex_digit h3, hex_digit h4 with
  | Some a, Some b, Some c, Some d =>
      Some (4096 * a + 256 * b + 16 * c + d)%Z
  | _, _, _, _ => None
  end.

(** The character that a short escape stands for. *)
Definition unescape (e : ascii) : option ascii :=
  if Ascii.eqb e quote then Some quote
  else if Ascii.eqb e backslash then Some backslash
  else if Ascii.eqb e "/" then Some "/"%char
  else if Ascii.eqb e "b" then Some "008"%char
  else if Ascii.eqb e "f" then Some "012"%char
  else if Ascii.eqb e "n" then Some "010"%char
  else if Ascii.eqb e "r" then Some "013"%char
  else if Ascii.eqb e "t" then Some "009"%char
  else None.

Definition prepend (p : string) (res : option (string * string))
  : option (string * string) :=
  match res with
  | Some (t, r) => Some (p ++ t, r)
  | None => None
  end.

(** The characters of a string literal after its opening quote, up to the
    closing quote. *)
Fixpoint parse_chars (s : string) : option (string * string) :=
  match s with
  | EmptyString => None
  | String c r =>
      if Ascii.eqb c quote then Some ("", r)
      else if Ascii.eqb c backslash then
        match r with
        | String e r1 =>
            if Ascii.eqb e "u" then
              match r1 with
              | String h1 (String h2 (String h3 (String h4 r2))) =>
                  match hex4 h1 h2 h3 h4 with
                  | Some u => prepend (code_unit u) (parse_chars r2)
                  | None => None
                  end
              | _ => None
              end
            else
              match unescape e with
              | Some x => prepend (String x "") (parse_chars r1)
              | None => None
              end
        | EmptyString => None
        end
      else if (nat_of_ascii c <? 32)%nat then None
      else prepend (String c "") (parse_chars r)
  end.

(** Whether a character can continue a number. *)
Definition continues_number (c : ascii) : bool :=
  Numeral.is_digit c || Ascii.eqb c "." || Ascii.eqb c "e" || Ascii.eqb c "E".

(** The fraction of a JSON number: a point and at least one digit, or
    nothing. *)
Definition parse_fraction (s : string) : option (list Z * string) :=
  match s with
  | String c r =>
      if Ascii.eqb c "." then
        match Numeral.read_digits r with
        | ([], _) => None
        | (fs, r') => Some (fs, r')
        end
      else Some ([], s)
  | EmptyString => Some ([], s)
  end.

(** The exponent of a JSON number, or nothing. *)
Definition parse_exponent (s : string) : option (Z * string) :=
  match s with
  | String c _ =>
      if Ascii.eqb c "e" || Ascii.eqb c "E"
      then Numeral.read_exponent s
      else Some (0%Z, s)
  | EmptyString => Some (0%Z, s)
  end.

(** A JSON number after its sign: an integer part without a leading zero, an
    optional fraction and an optional exponent. *)
Definition parse_unsigned (negative : bool) (s : string)
  : option (num * string) :=
  match Numeral.read_digits s with
  | ([], _) => None
  | (d :: ds, s2) =>
      if (d =? 0)%Z && negb (Nat.eqb (List.length ds) 0) then None
      else
        match parse_fraction s2 with
        | None => None
        | Some (fs, s3) =>
            match parse_exponent s3 with
            | None => None
            | Some (e, s4) =>
                Some (Fin (Numeral.scale negative
                             (Numeral.value_of_digits (d :: ds ++ fs))
                             (e - Z.of_nat (List.length fs))),
                      s4)
            end
        end
  end.

Definition parse_number (s : string) : option (num * string) :=
  match s with
  | String c r =>
      if Ascii.eqb c "-" then parse_unsigned true r
      else parse_unsigned false s
  | EmptyString => None
  end.

Fixpoint strip_prefix (p s : string) : option string :=
  match p with
  | EmptyString => Some s
  | String a p' =>
      match s with
      | String b s' => if Ascii.eqb a b then strip_prefix p' s' else None
      | EmptyString => None
      end
  end.

Definition expect (lit : string) (v : value) (s : string)
  : option (value * string) :=
  option_map (fun r => (v, r)) (strip_prefix lit s).

(** A member read into an object: a later member of the same name replaces
    the value of the earlier one. *)
Fixpoint put (k : string) (v : value) (l : list (string * value))
  : list (string * value) :=
  match l with
  | [] => [(k, v)]
  | (k', v') :: r =>
      if String.eqb k k' then (k, v) :: r else (k', v') :: put k v r
  end.

(** Whether [s] starts with the character [c]. *)
Definition starts_with (c : ascii) (s : string) : bool :=
  match s with
  | String c' _ => Ascii.eqb c' c
  | EmptyString => false
  end.

Definition tail (s : string) : string :=
  match s with
  | String _ r => r
  | EmptyString => EmptyString
  end.

(** The recursive descent; [fuel] bounds the depth of the recursion. *)
Fixpoint parse_value (fuel : nat) (s : string) : option (value * string) :=
  match fuel with
  | O => None
  | S f =>
      match skip_ws s with
      | EmptyString => None
      | String c r as s' =>
          if Ascii.eqb c "n" then expect "null" JNull s'
          else if Ascii.eqb c "t" then expect "true" (JBool true) s'
          else if Ascii.eqb c "f" then expect "false" (JBool false) s'
          else if Ascii.eqb c quote then
            match parse_chars r with
            | Some (t, r') => Some (JStr t, r')
            | None => None
            end
          else if Ascii.eqb c "[" then
            if starts_with "]" (skip_ws r) then Some (JArr [], tail (skip_ws r))
            else
              match parse_elements f r with
              | Some (l, r') => Some (JArr l, r')
              | None => None
              end
          else if Ascii.eqb c "{" then
            if starts_with "}" (skip_ws r) then Some (JObj [], tail (skip_ws r))
            else
              match parse_members f [] r with
              | Some (l, r') => Some (JObj l, r')
              | None => None
              end
          else
            match parse_number s' with
            | Some (n, r') => Some (JNum n, r')
            | None => None
            end
      end
  end

with parse_elements (fuel : nat) (s : string)
  : option (list value * string) :=
  match fuel with
  | O => None
  | S f =>
      match parse_value f s with
      | None => None
      | Some (v, r) =>
          let r' := skip_ws r in
          if starts_with "," r' then
            match parse_elements f (tail r') with
            | Some (l, r'') => Some (v :: l, r'')
            | None => None
            end
          else if starts_with "]" r' then Some ([v], tail r')
          else None
      end
  end

with parse_members (fuel : nat) (acc : list (string * value)) (s : string)
  : option (list (string * value) * string) :=
  match fuel with
  | O => None
  | S f =>
      if starts_with quote (skip_ws s) then
        match parse_chars (tail (skip_ws s)) with
        | None => None
        | Some (k, r1) =>
            if starts_with ":" (skip_ws r1) then
              match parse_value f (tail (skip_ws r1)) with
              | None => None
              | Some (v, r3) =>
                  let r4 := skip_ws r3 in
                  if starts_with "," r4
                  then parse_members f (put k v acc) (tail r4)
                  else if starts_with "}" r4
                  then Some (put k v acc, tail r4)
                  else None
              end
            else None
        end
      else None
  end.

(** [JSON.parse(s)]; [None] stands for the SyntaxError it throws.  The fuel
    given is never the reason of a failure (see [parse_fuel_enough]). *)
Definition parse (s : string) : option value :=
  match parse_value (2 * String.length s + 2) s with
  | Some (v, r) =>
      match skip_ws r with
      | EmptyString => Some v
      | _ => None
      end
  | None => None
  end.

End Json.

(** ** The program *)

Import JsNum.
Open Scope string_scope.

(** *** State Management *)

Record Expense : Type := {
  id : num;
  amount : num;
  category : string;
  date : string;
  note : string
}.

Record State : Type := {
  allowance : num;
  goal : num;
  expenses : list Expense
}.

(** [const state = { allowance: 0, goal: 0, expenses: [] }] *)
Definition state : State :=
  {| allowance := zero; goal := zero; expenses := [] |}.

(** What a handler works on: the record, and the text stored under the key
    ['hostelFinanceData'] of [localStorage] ([None] when the key is absent). *)
Record World : Type := {
  ledger : State;
  hostelFinanceData : option string
}.

(** What a handler reads from its surroundings: the clock, in milliseconds
    since the epoch, and the offset of local time, in milliseconds. *)
Record Env : Type := {
  now : Z;
  tza : Z
}.

Inductive error : Type := SyntaxError | TypeError.

(** How a call ends.  [IllTyped]: the stored text parses but holds values
    that are no ledger record; the program keeps them unchecked, and this
    typed model does not follow it there. *)
Inductive completion (A : Type) : Type :=
| Normal (a : A)
| Throw (e : error)
| IllTyped.

Arguments Normal {A} a.
Arguments Throw {A} e.
Arguments IllTyped {A}.

(** *** Data Persistence *)

(** The record as the object that [JSON.stringify(state)] walks. *)
Definition expense_value (e : Expense) : Json.value :=
  Json.JObj [("id", Json.JNum (id e));
             ("amount", Json.JNum (amount e));
             ("category", Json.JStr (category e));
             ("date", Json.JStr (date e));
             ("note", Json.JStr (note e))].

Definition state_value (st : State) : Json.value :=
  Json.JObj [("allowance", Json.JNum (allowance st));
             ("goal", Json.JNum (goal st));
             ("expenses", Json.JArr (map expense_value (expenses st)))].

(** ToBoolean *)
Definition truthy (v : Json.value) : bool :=
  match v with
  | Json.JNull => false
  | Json.JBool b => b
  | Json.JNum n => JsNum.truthy n
  | Json.JStr s => negb (String.eqb s "")
  | Json.JArr _ | Json.JObj _ => true
  end.

Fixpoint lookup (k : string) (l : list (string * Json.value))
  : option Json.value :=
  match l with
  | [] => None
  | (k', v) :: r => if String.eqb k k' then Some v else lookup k r
  end.

(** [v.k] for a key [k] that no prototype defines, on a value [v] that is not
    [null]; [None] is [undefined]. *)
Definition get (v : Json.value) (k : string) : option Json.value :=
  match v with
  | Json.JObj l => lookup k l
  | _ => None
  end.

(** [x || d] *)
Definition or_else (x : option Json.value) (d : Json.value) : Json.value :=
  match x with
  | Some v => if truthy v then v else d
  | None => d
  end.

Definition as_num (v : Json.value) : option num :=
  match v with Json.JNum n => Some n | _ => None end.

Definition as_string (v : option Json.value) : option string :=
  match v with Some (Json.JStr s) => Some s | _ => None end.

Definition as_expense (v : Json.value) : option Expense :=
  match option_map as_num (get v "id"), option_map as_num (get v "amount"),
        as_string (get v "category"), as_string (get v "date"),
        as_string (get v "note") with
  | Some (Some i), Some (Some a), Some c, Some d, Some n =>
      Some {| id := i; amount := a; category := c; date := d; note := n |}
  | _, _, _, _, _ => None
  end.

Fixpoint as_expense_list (l : list Json.value) : option (list Expense) :=
  match l with
  | [] => Some []
  | v :: r =>
      match as_expense v, as_expense_list r with
      | Some e, Some es => Some (e :: es)
      | _, _ => None
      end
  end.

Definition as_expenses (v : Json.value) : option (list Expense) :=
  match v with Json.JArr l => as_expense_list l | _ => None end.

Definition loadData (w : World) : completion World :=
  match hostelFinanceData w with
  | None => Normal w
  | Some savedData =>
      if String.eqb savedData "" then Normal w
      else
        match Json.parse savedData with
        | None => Throw SyntaxError
        | Some Json.JNull => Throw TypeError
        | Some parsed =>
            match as_num (or_else (get parsed "allowance") (Json.JNum zero)),
                  as_num (or_else (get parsed "goal") (Json.JNum zero)),
                  as_expenses (or_else (get parsed "expenses") (Json.JArr []))
            with
            | Some a, Some g, Some es =>
                Normal {| ledger := {| allowance := a; goal := g; expenses := es |};
                          hostelFinanceData := hostelFinanceData w |}
            | _, _, _ => IllTyped
            end
        end
  end.

(** [saveData()]; the dashboard and the list it then redraws are the values
    of [updateDashboard] and [renderExpenses] below. *)
Definition saveData (w : World) : World :=
  {| ledger := ledger w;
     hostelFinanceData := Some (Json.stringify (state_value (ledger w))) |}.

(** *** Core Logic *)

Record HealthIndicator : Type := {
  status_text : string;
  status_dot : string
}.

Inductive SavingsText : Type :=
| NoGoalSet
| SavedOfGoal (saved target : num).

Record SavingsProgress : Type := {
  savingsProgressText : SavingsText;
  savingsPercentage : num;
  savingsBar : num
}.

(** What [updateDashboard] writes into the page, by element. *)
Record Dashboard : Type := {
  shown_totalAllowance : num;
  shown_totalSpent : num;
  shown_currentBalance : num;
  shown_daysLeft : Z;
  shown_healthIndicator : HealthIndicator;
  shown_savings : SavingsProgress
}.

(** [state.expenses.reduce((sum, exp) => sum + exp.amount, 0)] *)
Definition totalSpent (st : State) : num :=
  fold_left (fun sum exp => add sum (amount exp)) (expenses st) zero.

Definition balance (st : State) : num := sub (allowance st) (totalSpent st).

(** [new Date(new Date().getFullYear(), new Date().getMonth() + 1, 0).getDate()] *)
Definition daysInMonth (env : Env) : Z :=
  JsDate.getDate (tza env)
    (JsDate.Date_ymd (tza env)
       (JsDate.getFullYear (tza env) (now env))
       (JsDate.getMonth (tza env) (now env) + 1) 0).

(** [new Date().getDate()] *)
Definition today (env : Env) : Z := JsDate.getDate (tza env) (now env).

Definition remainingDays (env : Env) : Z := (daysInMonth env - today env)%Z.

(** [remainingDays || 1] *)
Definition or_one (remainingDays : Z) : Z :=
  if (remainingDays =? 0)%Z then 1%Z else remainingDays.

(** [balance / (remainingDays || 1)] *)
Definition dailyBudget (balance : num) (remainingDays : Z) : num :=
  div balance (of_Z (or_one remainingDays)).

(** [state.allowance / totalDays] *)
Definition idealDaily (st : State) (totalDays : Z) : num :=
  div (allowance st) (of_Z totalDays).

Definition updateHealthIndicator (st : State) (balance : num)
    (remainingDays totalDays : Z) : HealthIndicator :=
  let dailyBudget := dailyBudget balance remainingDays in
  let color := "#94a3b8" in
  if eqb (allowance st) zero then
    {| status_text := "Set Allowance"; status_dot := color |}
  else
    let idealDaily := idealDaily st totalDays in
    let (status, color) :=
      if ltb balance zero then ("Critical", "#ef4444")
      else if ltb dailyBudget (mul idealDaily half) then ("Tight", "#f59e0b")
      else if geb dailyBudget idealDaily then ("Healthy", "#10b981")
      else ("Careful", "#f59e0b") in
    {| status_text := "Health: " ++ status; status_dot := color |}.

(** [Math.min(100, Math.max(0, (balance / state.goal) * 100))] *)
Definition progress (st : State) (balance : num) : num :=
  Math_min hundred (Math_max zero (mul (div balance (goal st)) hundred)).

Definition updateSavingsProgress (st : State) (balance : num)
  : SavingsProgress :=
  if eqb (goal st) zero then
    {| savingsProgressText := NoGoalSet;
       savingsPercentage := zero;
       savingsBar := zero |}
  else
    let progress := progress st balance in
    {| savingsProgressText := SavedOfGoal (Math_max zero balance) (goal st);
       savingsPercentage := Math_round progress;
       savingsBar := progress |}.

Definition updateDashboard (env : Env) (st : State) : Dashboard :=
  let totalSpent := totalSpent st in
  let balance := balance st in
  let daysInMonth := daysInMonth env in
  let remainingDays := remainingDays env in
  {| shown_totalAllowance := allowance st;
     shown_totalSpent := totalSpent;
     shown_currentBalance := balance;
     shown_daysLeft := remainingDays;
     shown_healthIndicator :=
       updateHealthIndicator st balance remainingDays daysInMonth;
     shown_savings := updateSavingsProgress st balance |}.

(** [isSameDay(d1, d2)]; a field of an invalid date is [NaN], which is equal
    to nothing. *)
Definition isSameDay (env : Env) (d1 d2 : JsDate.Date) : bool :=
  match d1, d2 with
  | Some t1, Some t2 =>
      (JsDate.getFullYear (tza env) t1 =? JsDate.getFullYear (tza env) t2)%Z
      && (JsDate.getMonth (tza env) t1 =? JsDate.getMonth (tza env) t2)%Z
      && (JsDate.getDate (tza env) t1 =? JsDate.getDate (tza env) t2)%Z
  | _, _ => false
  end.

(** [d1 >= d2] on dates: on their time values, false when one is invalid. *)
Definition date_geb (d1 d2 : JsDate.Date) : bool :=
  match d1, d2 with
  | Some t1, Some t2 => (t2 <=? t1)%Z
  | _, _ => false
  end.

(** The comparator [(a, b) => new Date(b.date) - new Date(a.date)]; [None]
    is [NaN]. *)
Definition by_date (a b : Expense) : option Z :=
  match JsDate.Date_parse (date b), JsDate.Date_parse (date a) with
  | Some tb, Some ta => Some (tb - ta)%Z
  | _, _ => None
  end.

(** [Array.prototype.sort(comparefn)]: a stable sort, here by insertion; a
    comparison that yields [NaN] counts as zero. *)
Section Sort.
Context {A : Type} (comparefn : A -> A -> option Z).

Definition stays_before (x y : A) : bool :=
  match comparefn x y with
  | Some v => (v <=? 0)%Z
  | None => true
  end.

Fixpoint insert (x : A) (l : list A) : list A :=
  match l with
  | [] => [x]
  | y :: r => if stays_before x y then x :: y :: r else y :: insert x r
  end.

Fixpoint sort (l : list A) : list A :=
  match l with
  | [] => []
  | x :: r => insert x (sort r)
  end.

End Sort.

(** The entries that [renderExpenses(filter)] keeps, before it sorts them. *)
Definition filterExpenses (env : Env) (st : State) (filter : string)
  : list Expense :=
  let filteredExpenses := expenses st in
  let now_ := now env in
  if String.eqb filter "today" then
    List.filter
      (fun exp => isSameDay env (JsDate.Date_parse (date exp)) (Some now_))
      filteredExpenses
  else if String.eqb filter "week" then
    let oneWeekAgo :=
      JsDate.setDate (tza env) (now env)
        (JsDate.getDate (tza env) now_ - 7) in
    List.filter
      (fun exp => date_geb (JsDate.Date_parse (date exp)) (Some oneWeekAgo))
      filteredExpenses
  else filteredExpenses.

(** [renderExpenses(filter)]: the entries it draws, in the order it draws
    them. *)
Definition renderExpenses (env : Env) (st : State) (filter : string)
  : list Expense :=
  sort by_date (filterExpenses env st filter).

(** *** Event Listeners *)

(** The submit handler of the allowance form, on the text of its field. *)
Definition submitAllowance (input : string) (w : World) : World :=
  let amount := Numeral.parseFloat input in
  if gtb amount zero then
    saveData {| ledger := {| allowance := amount;
                             goal := goal (ledger w);
                             expenses := expenses (ledger w) |};
                hostelFinanceData := hostelFinanceData w |}
  else w.

(** The submit handler of the goal form. *)
Definition submitGoal (input : string) (w : World) : World :=
  let amount := Numeral.parseFloat input in
  if gtb amount zero then
    saveData {| ledger := {| allowance := allowance (ledger w);
                             goal := amount;
                             expenses := expenses (ledger w) |};
                hostelFinanceData := hostelFinanceData w |}
  else w.

(** The submit handler of the expense form, on the texts of its four fields;
    [Date.now()] is the clock. *)
Definition submitExpense (env : Env)
    (amount_input category_input date_input note_input : string) (w : World)
  : World :=
  let amount := Numeral.parseFloat amount_input in
  if gtb amount zero && negb (String.eqb date_input "") then
    let newExpense :=
      {| id := of_Z (now env);
         amount := amount;
         category := category_input;
         date := date_input;
         note := note_input |} in
    saveData {| ledger := {| allowance := allowance (ledger w);
                             goal := goal (ledger w);
                             expenses := expenses (ledger w) ++ [newExpense] |};
                hostelFinanceData := hostelFinanceData w |}
  else w.

(** [window.deleteExpense(id)]; [confirmed] is the answer to [confirm(...)]. *)
Definition deleteExpense (confirmed : bool) (id_ : num) (w : World) : World :=
  if confirmed then
    saveData {| ledger := {| allowance := allowance (ledger w);
                             goal := goal (ledger w);
                             expenses :=
                               List.filter (fun exp => negb (eqb (id exp) id_))
                                 (expenses (ledger w)) |};
                hostelFinanceData := hostelFinanceData w |}
  else w.

(** ** The terms of the specification *)

(** The five health statuses, with the text and the colour each is shown
    with. *)
Inductive Status : Type :=
| SetAllowance
| Critical
| Tight
| Healthy
| Careful.

Definition status_label (s : Status) : string :=
  match s with
  | SetAllowance => "Set Allowance"
  | Critical => "Health: Critical"
  | Tight => "Health: Tight"
  | Healthy => "Health: Healthy"
  | Careful => "Health: Careful"
  end.

Definition status_colour (s : Status) : string :=
  match s with
  | SetAllowance => "#94a3b8"
  | Critical => "#ef4444"
  | Tight => "#f59e0b"
  | Healthy => "#10b981"
  | Careful => "#f59e0b"
  end.

(** The rules of the health status, in their order of precedence. *)
Definition health_rule (allowance balance dailyBudget idealDaily : num)
  : Status :=
  if eqb allowance zero then SetAllowance
  else if ltb balance zero then Critical
  else if ltb dailyBudget (mul idealDaily half) then Tight
  else if geb dailyBudget idealDaily then Healthy
  else Careful.

(** An amount typed into a form that is not numeric, or not positive. *)
Definition invalid_amount (input : string) : Prop :=
  Numeral.parseFloat input = NaN \/ leb (Numeral.parseFloat input) zero = true.

(** ** Rejected submissions *)

Lemma invalid_amount_not_positive input :
  invalid_amount input -> gtb (Numeral.parseFloat input) zero = false.
Proof.
  intros [H|H].
  - rewrite H. apply NaN_not_gtb.
  - now apply leb_not_gtb.
Qed.

(** C3: a submission of the allowance form or of the goal form whose amount
    is not numeric or not positive, and a submission of the expense form
    whose amount is such or whose date is absent, leaves the record and the
    stored text as they were. *)
Theorem invalid_submission_leaves_world (env : Env) (w : World)
    (amount_input category_input date_input note_input : string) :
  invalid_amount amount_input \/ date_input = "" ->
  submitExpense env amount_input category_input date_input note_input w = w
  /\ (invalid_amount amount_input ->
      submitAllowance amount_input w = w /\ submitGoal amount_input w = w).
Proof.
  intros H. split.
  - unfold submitExpense. destruct H as [H| ->].
    + now rewrite (invalid_amount_not_positive _ H).
    + rewrite String.eqb_refl, andb_false_r. reflexivity.
  - intros Ha. unfold submitAllowance, submitGoal.
    now rewrite (invalid_amount_not_positive _ Ha).
Qed.

Lemma invalid_submission_leaves_world_witness :
  let env := {| now := 1731240000000; tza := 18000000 |} in
  let w := {| ledger := state; hostelFinanceData := None |} in
  (invalid_amount "-5" \/ "" = "")
  /\ submitExpense env "-5" "food" "" "lunch" w = w
  /\ invalid_amount "abc"
  /\ submitAllowance "abc" w = w.
Proof.
  cbv zeta.
  assert (H1 : invalid_amount "-5") by (right; vm_compute; reflexivity).
  assert (H2 : invalid_amount "abc") by (left; vm_compute; reflexivity).
  split; [left; exact H1|].
  split.
  - exact (proj1 (invalid_submission_leaves_world
                    {| now := 1731240000000; tza := 18000000 |}
                    {| ledger := state; hostelFinanceData := None |}
                    "-5" "food" "" "lunch" (or_introl H1))).
  - split; [exact H2|].
    exact (proj1 (proj2 (invalid_submission_leaves_world
                           {| now := 1731240000000; tza := 18000000 |}
                           {| ledger := state; hostelFinanceData := None |}
                           "abc" "food" "2024-11-10" "lunch" (or_introl H2))
                    H2)).
Defined.

(** ** Frame of the mutations *)

(** C10: every mutation changes its own part of the record only.  The
    allowance form leaves goal and expenses, and sets the allowance when the
    amount is positive; the goal form leaves allowance and expenses, and sets
    the goal; the expense form leaves allowance and goal, and adds one entry
    at the end of the list, the entries before it unchanged; a confirmed
    deletion leaves allowance and goal, and keeps exactly the entries of
    another id, in their order. *)
Theorem mutations_change_only_their_part (env : Env) (w : World)
    (input category_input date_input note_input : string) (i : num) :
  let st := ledger w in
  (let st' := ledger (submitAllowance input w) in
   goal st' = goal st /\ expenses st' = expenses st
   /\ (gtb (Numeral.parseFloat input) zero = true ->
       allowance st' = Numeral.parseFloat input))
  /\ (let st' := ledger (submitGoal input w) in
      allowance st' = allowance st /\ expenses st' = expenses st
      /\ (gtb (Numeral.parseFloat input) zero = true ->
          goal st' = Numeral.parseFloat input))
  /\ (let st' := ledger (submitExpense env input category_input date_input
                           note_input w) in
      allowance st' = allowance st /\ goal st' = goal st
      /\ (gtb (Numeral.parseFloat input) zero = true ->
          date_input <> "" ->
          expenses st'
          = (expenses st
               ++ [{| id := of_Z (now env);
                      amount := Numeral.parseFloat input;
                      category := category_input;
                      date := date_input;
                      note := note_input |}])%list))
  /\ (let st' := ledger (deleteExpense true i w) in
      allowance st' = allowance st /\ goal st' = goal st
      /\ expenses st'
         = List.filter (fun e => negb (eqb (id e) i)) (expenses st)
      /\ (forall e, In e (expenses st') -> In e (expenses st))).
Proof.
  cbv zeta.
  unfold submitAllowance, submitGoal, submitExpense, deleteExpense.
  destruct (gtb (Numeral.parseFloat input) zero) eqn:E;
    destruct (String.eqb_spec date_input "") as [Hd|Hd];
    cbn [negb andb saveData ledger allowance goal expenses];
    repeat split; trivial; try discriminate; try contradiction.
  all: intros e He; apply filter_In in He; tauto.
Qed.

(** ** Daily budget *)

(** The daily budget as the specification words it: the balance over the
    days that remain, one day at least. *)
Definition daily_budget_rule (balance : num) (remaining : Z) : num :=
  div balance (of_Z (Z.max remaining 1)).

(** The calendar month of the clock, in local time: its year and month, the
    number of its days, and the day of the month. *)
Definition clock_year (env : Env) : Z :=
  JsDate.YearFromTime (JsDate.LocalTime (tza env) (now env)).
Definition clock_month (env : Env) : Z :=
  JsDate.MonthFromTime (JsDate.LocalTime (tza env) (now env)).
Definition clock_day (env : Env) : Z :=
  JsDate.DateFromTime (JsDate.LocalTime (tza env) (now env)).
Definition days_of_clock_month (env : Env) : Z :=
  JsDate.DaysInMonth (clock_year env) (clock_month env).

Lemma InLeapYear_two_digits y :
  (1 <= y <= 99)%Z -> JsDate.InLeapYear (1900 + y) = JsDate.InLeapYear y.
Proof.
  intros Hy. unfold JsDate.InLeapYear, JsDate.DaysInYear.
  destruct (Z.eqb_spec ((1900 + y) mod 4) 0), (Z.eqb_spec (y mod 4) 0);
    destruct (Z.eqb_spec ((1900 + y) mod 100) 0), (Z.eqb_spec (y mod 100) 0);
    destruct (Z.eqb_spec ((1900 + y) mod 400) 0), (Z.eqb_spec (y mod 400) 0);
    cbn; try reflexivity; lia.
Qed.

(** Day 0 of the month after month [m], read back in local time, is the
    number of days of month [m]. *)
Lemma getDate_of_day_zero tza y m :
  (0 <= m <= 11)%Z ->
  JsDate.DateFromTime
    (JsDate.LocalTime tza
       (JsDate.UTC tza (JsDate.MakeDay y (m + 1) 0 * JsDate.msPerDay)))
  = JsDate.DaysInMonth y m.
Proof.
  intros Hm. unfold JsDate.LocalTime, JsDate.UTC, JsDate.DateFromTime.
  replace (JsDate.MakeDay y (m + 1) 0 * JsDate.msPerDay - tza + tza)%Z
    with (JsDate.MakeDay y (m + 1) 0 * JsDate.msPerDay)%Z by lia.
  unfold JsDate.Day. rewrite Z.div_mul by (unfold JsDate.msPerDay; lia).
  rewrite JsDate.MakeDay_last by exact Hm.
  pose proof (JsDate.DaysInMonth_range y m Hm).
  apply JsDate.civil_MakeDay; lia.
Qed.

Lemma clock_month_range env : (0 <= clock_month env <= 11)%Z.
Proof. apply JsDate.MonthFromDay_spec. Qed.

Lemma daysInMonth_of_clock env :
  clock_year env <> 0%Z -> daysInMonth env = days_of_clock_month env.
Proof.
  intros Hy. unfold daysInMonth, JsDate.getDate, JsDate.Date_ymd,
    JsDate.getFullYear, JsDate.getMonth, days_of_clock_month.
  fold (clock_year env) (clock_month env).
  rewrite getDate_of_day_zero by apply clock_month_range.
  destruct ((0 <=? clock_year env)%Z && (clock_year env <=? 99)%Z) eqn:E;
    [|reflexivity].
  unfold JsDate.DaysInMonth. rewrite InLeapYear_two_digits; [reflexivity|lia].
Qed.

Lemma clock_day_range env :
  (1 <= clock_day env <= days_of_clock_month env)%Z.
Proof. apply JsDate.DateFromDay_range. Qed.

Lemma remainingDays_of_clock env :
  clock_year env <> 0%Z ->
  remainingDays env = (days_of_clock_month env - clock_day env)%Z.
Proof.
  intros Hy. unfold remainingDays. now rewrite (daysInMonth_of_clock env Hy).
Qed.

(** With no day lacking, [remainingDays || 1] is the larger of
    [remainingDays] and 1. *)
Lemma dailyBudget_rule balance remaining :
  (0 <= remaining)%Z ->
  dailyBudget balance remaining = daily_budget_rule balance remaining.
Proof.
  intros Hr. unfold dailyBudget, daily_budget_rule, or_one.
  destruct (Z.eqb_spec remaining 0) as [->|Hne]; [reflexivity|].
  now rewrite Z.max_l by lia.
Qed.

(** C6: for every record and every clock, the daily budget is the balance
    over the days that remain in the month, one day at least, where the
    balance is the allowance less the total spent and the days that remain
    are the days of the month of the clock less its day of the month; the
    divisor is never zero.  (The clock is not in the year 0, which
    [new Date(year, ...)] would take for 1900.) *)
Theorem daily_budget_formula (env : Env) (st : State) :
  clock_year env <> 0%Z ->
  remainingDays env = (days_of_clock_month env - clock_day env)%Z
  /\ (0 <= remainingDays env)%Z
  /\ balance st = sub (allowance st) (totalSpent st)
  /\ dailyBudget (balance st) (remainingDays env)
     = daily_budget_rule (sub (allowance st) (totalSpent st))
         (days_of_clock_month env - clock_day env)
  /\ of_Z (Z.max (days_of_clock_month env - clock_day env) 1) <> zero.
Proof.
  intros Hy. pose proof (remainingDays_of_clock env Hy) as Hr.
  pose proof (clock_day_range env) as Hd.
  rewrite Hr. repeat split; try lia.
  - apply dailyBudget_rule. lia.
  - unfold zero, of_Z. intros H. apply Fin_inj in H.
    apply Q2Qc_eq_iff in H. unfold Qeq in H. cbn in H. lia.
Qed.

Lemma daily_budget_formula_witness :
  let env := {| now := 1731240000000; tza := 18000000 |} in
  let st := {| allowance := of_Z 1000; goal := of_Z 500; expenses := [] |} in
  clock_year env <> 0%Z
  /\ remainingDays env = (days_of_clock_month env - clock_day env)%Z
  /\ (0 <= remainingDays env)%Z
  /\ balance st = sub (allowance st) (totalSpent st)
  /\ dailyBudget (balance st) (remainingDays env)
     = daily_budget_rule (sub (allowance st) (totalSpent st))
         (days_of_clock_month env - clock_day env)
  /\ of_Z (Z.max (days_of_clock_month env - clock_day env) 1) <> zero.
Proof.
  cbv zeta.
  assert (H : clock_year {| now := 1731240000000; tza := 18000000 |} <> 0%Z)
    by (vm_compute; discriminate).
  split; [exact H|].
  exact (daily_budget_formula {| now := 1731240000000; tza := 18000000 |}
           {| allowance := of_Z 1000; goal := of_Z 500; expenses := [] |} H).
Defined.

(** Why the year 0 is left out: on its 29 February the month that
    [new Date(0, 2, 0)] reads is February 1900, of 28 days, and the days that
    remain come out as -1. *)
Remark year_zero_february :
  let env := {| now := (-62162121600000)%Z; tza := 0%Z |} in
  (clock_year env, clock_month env, clock_day env) = (0, 1, 29)%Z
  /\ days_of_clock_month env = 29%Z
  /\ daysInMonth env = 28%Z
  /\ remainingDays env = (-1)%Z.
Proof. vm_compute. repeat split. Qed.

(** ** Health status *)

Lemma status_label_inj s1 s2 : status_label s1 = status_label s2 -> s1 = s2.
Proof. destruct s1, s2; simpl; intros H; try reflexivity; discriminate H. Qed.

(** C2: for every record and every clock the health indicator shows the
    status that the five rules give, the first rule that applies winning:
    no allowance set, then a negative balance, then a daily budget under half
    of the ideal one, then a daily budget of at least the ideal one, then
    "Careful"; the text shown is that of exactly one of the five statuses.
    The daily budget and the ideal one are those of [updateDashboard]; outside
    the year 0 they are the balance over the days that remain, one at least,
    and the allowance over the days of the month. *)
Theorem health_status_by_precedence (env : Env) (st : State) :
  let shown := shown_healthIndicator (updateDashboard env st) in
  let s := health_rule (allowance st) (balance st)
             (dailyBudget (balance st) (remainingDays env))
             (idealDaily st (daysInMonth env)) in
  status_text shown = status_label s
  /\ status_dot shown = status_colour s
  /\ (forall s', status_text shown = status_label s' -> s' = s)
  /\ (clock_year env <> 0%Z ->
      s = health_rule (allowance st) (sub (allowance st) (totalSpent st))
            (daily_budget_rule (sub (allowance st) (totalSpent st))
               (days_of_clock_month env - clock_day env))
            (div (allowance st) (of_Z (days_of_clock_month env)))).
Proof.
  cbv zeta.
  assert (H : status_text (shown_healthIndicator (updateDashboard env st))
              = status_label
                  (health_rule (allowance st) (balance st)
                     (dailyBudget (balance st) (remainingDays env))
                     (idealDaily st (daysInMonth env)))
              /\ status_dot (shown_healthIndicator (updateDashboard env st))
                 = status_colour
                     (health_rule (allowance st) (balance st)
                        (dailyBudget (balance st) (remainingDays env))
                        (idealDaily st (daysInMonth env)))).
  { unfold updateDashboard, updateHealthIndicator, health_rule.
    cbn [shown_healthIndicator].
    destruct (eqb (allowance st) zero); [split; reflexivity|].
    destruct (ltb (balance st) zero); [split; reflexivity|].
    destruct (ltb _ _); [split; reflexivity|].
    destruct (geb _ _); split; reflexivity. }
  destruct H as [Ht Hc]. repeat split; trivial.
  - intros s' Hs'. apply status_label_inj. now rewrite <- Hs', Ht.
  - intros Hy. rewrite (remainingDays_of_clock env Hy).
    unfold idealDaily. rewrite (daysInMonth_of_clock env Hy).
    rewrite dailyBudget_rule; [reflexivity|].
    pose proof (clock_day_range env). lia.
Qed.

(** ** Savings progress *)

(** [clamp(x, lo, hi)] *)
Definition clamp (x lo hi : num) : num :=
  if ltb x lo then lo else if gtb x hi then hi else x.

(** [max(x, 0)] *)
Definition at_least_zero (x : num) : num := if ltb x zero then zero else x.

Lemma cmp_Fin_Eq p q : cmp (Fin p) (Fin q) = Some Eq -> Fin p = Fin q.
Proof.
  cbn. intros H. f_equal. apply Qceq_alt. congruence.
Qed.

Lemma clamp_Fin r :
  let c := Math_min hundred (Math_max zero (Fin r)) in
  c = clamp (Fin r) zero hundred /\ leb zero c = true /\ leb c hundred = true.
Proof.
  cbv zeta. unfold Math_max, Math_min, clamp, ltb, gtb.
  rewrite (cmp_antisym (Fin r) zero).
  destruct (cmp (Fin r) zero) as [[]|] eqn:E0; cbn [option_map CompOpp];
    try discriminate E0.
  - (* r = 0 *)
    apply cmp_Fin_Eq in E0. rewrite E0. vm_compute. auto.
  - (* r < 0 *)
    vm_compute. auto.
  - (* 0 < r *)
    rewrite (cmp_antisym (Fin r) hundred).
    destruct (cmp (Fin r) hundred) as [[]|] eqn:E1; cbn [option_map CompOpp];
      try discriminate E1.
    + apply cmp_Fin_Eq in E1. rewrite E1. vm_compute. auto.
    + unfold leb. rewrite (cmp_antisym (Fin r) zero), E0, E1. cbn. auto.
    + vm_compute. auto.
Qed.

Lemma at_least_zero_Fin r : Math_max zero (Fin r) = at_least_zero (Fin r).
Proof.
  unfold Math_max, at_least_zero, ltb. rewrite (cmp_antisym (Fin r) zero).
  destruct (cmp (Fin r) zero) as [[]|] eqn:E0; cbn [option_map CompOpp];
    try discriminate E0; try reflexivity.
  apply cmp_Fin_Eq in E0. now rewrite E0.
Qed.

Lemma percentage_is_Fin balance target :
  is_finite balance = true -> gtb target zero = true ->
  exists r, mul (div balance target) hundred = Fin r.
Proof.
  destruct balance as [| |p]; try discriminate. intros _.
  destruct target as [| s |q]; try discriminate.
  - intros _. eexists. reflexivity.
  - unfold gtb, div, Qc_is_zero, zero, of_Z. cbn [cmp].
    change (Q2Qc (inject_Z 0)) with 0%Qc.
    destruct (q ?= 0)%Qc; try discriminate. intros _. eexists. reflexivity.
Qed.

(** C7: with a goal above zero, the savings progress is the percentage of the
    goal that the balance makes, clamped between 0 and 100: it lies in
    [0, 100], and the amount shown as saved is the balance, or zero when the
    balance is negative.  With a goal of zero the progress shown is zero, with
    the text "No goal set". *)
Theorem savings_progress_clamped (st : State) (balance : num) :
  is_finite balance = true ->
  let shown := updateSavingsProgress st balance in
  (gtb (goal st) zero = true ->
   savingsBar shown
   = clamp (mul (div balance (goal st)) hundred) zero hundred
   /\ leb zero (savingsBar shown) = true
   /\ leb (savingsBar shown) hundred = true
   /\ savingsPercentage shown = Math_round (savingsBar shown)
   /\ savingsProgressText shown
      = SavedOfGoal (at_least_zero balance) (goal st))
  /\ (eqb (goal st) zero = true ->
      savingsProgressText shown = NoGoalSet
      /\ savingsBar shown = zero
      /\ savingsPercentage shown = zero).
Proof.
  intros Hb. cbv zeta. unfold updateSavingsProgress. split.
  - intros Hg.
    assert (Hz : eqb (goal st) zero = false).
    { unfold gtb in Hg. unfold eqb. destruct (cmp (goal st) zero) as [[]|]; easy. }
    rewrite Hz. cbn [savingsBar savingsPercentage savingsProgressText].
    unfold progress.
    destruct (percentage_is_Fin balance (goal st) Hb Hg) as [r ->].
    destruct (clamp_Fin r) as (Hc & Hlo & Hhi). cbv zeta in Hc.
    repeat split; trivial.
    destruct balance as [| |p]; try discriminate.
    now rewrite at_least_zero_Fin.
  - intros Hz. rewrite Hz. repeat split.
Qed.

Lemma savings_progress_clamped_witness :
  let st := {| allowance := of_Z 1000; goal := of_Z 500; expenses := [] |} in
  is_finite (of_Z 200) = true
  /\ gtb (goal st) zero = true
  /\ leb (savingsBar (updateSavingsProgress st (of_Z 200))) hundred = true
  /\ eqb (savingsBar (updateSavingsProgress st (of_Z 200))) (of_Z 40) = true.
Proof.
  cbv zeta. split; [reflexivity|]. split; [reflexivity|]. split.
  - exact (proj1 (proj2 (proj2
             (proj1 (savings_progress_clamped
                       {| allowance := of_Z 1000; goal := of_Z 500;
                          expenses := [] |}
                       (of_Z 200) eq_refl) eq_refl)))).
  - vm_compute. reflexivity.
Defined.

(** ** The order of the list *)

(** An entry whose date reads as a date (the data model's calendar date). *)
Definition has_date (e : Expense) : Prop :=
  JsDate.Date_parse (date e) <> None.

(** [a] is dated as [b] or later. *)
Definition not_older (a b : Expense) : Prop :=
  date_geb (JsDate.Date_parse (date a)) (JsDate.Date_parse (date b)) = true.

Section SortFacts.
Context {A : Type} (comparefn : A -> A -> option Z).

Lemma insert_perm x l : Permutation (insert comparefn x l) (x :: l).
Proof.
  induction l as [|y r IH]; cbn; [reflexivity|].
  destruct (stays_before comparefn x y); [reflexivity|].
  rewrite IH. apply perm_swap.
Qed.

Lemma sort_perm l : Permutation (sort comparefn l) l.
Proof.
  induction l as [|x r IH]; cbn; [constructor|].
  rewrite insert_perm. now constructor.
Qed.

End SortFacts.

Lemma not_older_trans a b c : not_older a b -> not_older b c -> not_older a c.
Proof.
  unfold not_older, date_geb.
  destruct (JsDate.Date_parse (date a)), (JsDate.Date_parse (date b)),
    (JsDate.Date_parse (date c)); try discriminate; lia.
Qed.

Lemma stays_before_not_older a b :
  has_date a -> has_date b ->
  if stays_before by_date a b then not_older a b else not_older b a.
Proof.
  unfold has_date, stays_before, by_date, not_older, date_geb.
  destruct (JsDate.Date_parse (date a)) as [ta|],
    (JsDate.Date_parse (date b)) as [tb|]; try congruence. intros _ _.
  destruct (Z.leb_spec (tb - ta) 0); lia.
Qed.

Lemma insert_sorted x l :
  has_date x -> Forall has_date l ->
  StronglySorted not_older l -> StronglySorted not_older (insert by_date x l).
Proof.
  intros Hx Hl Hs. induction Hs as [|y r Hr IH Hy]; cbn.
  - repeat constructor.
  - inversion Hl as [|? ? Hdy Hdr]; subst.
    pose proof (stays_before_not_older x y Hx Hdy) as Hc.
    destruct (stays_before by_date x y).
    + constructor; [now constructor|].
      constructor; [exact Hc|].
      eapply Forall_impl; [|exact Hy]. intros z Hz.
      eapply not_older_trans; eauto.
    + constructor; [now apply IH|].
      eapply Permutation_Forall; [symmetry; apply insert_perm|].
      now constructor.
Qed.

Lemma sort_sorted l :
  Forall has_date l -> StronglySorted not_older (sort by_date l).
Proof.
  induction l as [|x r IH]; intros H; cbn; [constructor|].
  inversion H; subst. apply insert_sorted; auto.
  eapply Permutation_Forall; [symmetry; apply sort_perm|]. assumption.
Qed.

Lemma filterExpenses_incl env st f e :
  In e (filterExpenses env st f) -> In e (expenses st).
Proof.
  unfold filterExpenses.
  destruct (f =? "today"); [intros H; apply filter_In in H; tauto|].
  destruct (f =? "week"); [intros H; apply filter_In in H; tauto|].
  trivial.
Qed.

(** C9: for every list of dated entries, every clock and every filter, the
    entries drawn are the entries the filter keeps, ordered by date, the most
    recent first: each is dated as every later one in the list or later. *)
Theorem rendered_newest_first (env : Env) (st : State) (filter : string) :
  Forall has_date (expenses st) ->
  StronglySorted not_older (renderExpenses env st filter)
  /\ Permutation (renderExpenses env st filter) (filterExpenses env st filter).
Proof.
  intros H. unfold renderExpenses. split; [|apply sort_perm].
  apply sort_sorted. rewrite Forall_forall in *.
  intros e He. apply H. eapply filterExpenses_incl; eauto.
Qed.

Lemma rendered_newest_first_witness :
  let env := {| now := 1731222000000; tza := 18000000 |} in
  let entry d := {| id := of_Z 1; amount := of_Z 50; category := "food";
                    date := d; note := "" |} in
  let st := {| allowance := of_Z 1000; goal := zero;
               expenses := [entry "2024-11-03"; entry "2024-11-12";
                            entry "2024-11-10"] |} in
  Forall has_date (expenses st)
  /\ StronglySorted not_older (renderExpenses env st "all")
  /\ map date (renderExpenses env st "all")
     = ["2024-11-12"; "2024-11-10"; "2024-11-03"].
Proof.
  cbv zeta.
  assert (H : Forall has_date
                [ {| id := of_Z 1; amount := of_Z 50; category := "food";
                     date := "2024-11-03"; note := "" |};
                  {| id := of_Z 1; amount := of_Z 50; category := "food";
                     date := "2024-11-12"; note := "" |};
                  {| id := of_Z 1; amount := of_Z 50; category := "food";
                     date := "2024-11-10"; note := "" |} ]).
  { repeat constructor; vm_compute; discriminate. }
  split; [exact H|]. split.
  - exact (proj1 (rendered_newest_first
                    {| now := 1731222000000; tza := 18000000 |}
                    {| allowance := of_Z 1000; goal := zero;
                       expenses := _ |} "all" H)).
  - vm_compute. reflexivity.
Defined.

(** ** The filters *)


(** [setDate] with the day of the month less [k] goes back [k] days, the time
    of day kept. *)
Lemma setDate_days_back tza t k :
  JsDate.setDate tza t (JsDate.getDate tza t - k)
  = (t - k * JsDate.msPerDay)%Z.
Proof.
  unfold JsDate.setDate, JsDate.getDate, JsDate.YearFromTime,
    JsDate.MonthFromTime, JsDate.DateFromTime, JsDate.UTC.
  rewrite JsDate.MakeDay_civil.
  unfold JsDate.LocalTime, JsDate.Day, JsDate.TimeWithinDay, JsDate.msPerDay.
  lia.
Qed.

(** What the week filter keeps: the entries whose date, read as midnight
    UTC, is not before the instant seven times 24 hours before the clock. *)
Lemma week_filter_keeps env st e :
  In e (filterExpenses env st "week")
  <-> In e (expenses st)
      /\ exists t, JsDate.Date_parse (date e) = Some t
                   /\ (now env - 7 * JsDate.msPerDay <= t)%Z.
Proof.
  unfold filterExpenses. cbn [String.eqb Ascii.eqb Bool.eqb].
  rewrite setDate_days_back, filter_In. unfold date_geb.
  destruct (JsDate.Date_parse (date e)) as [t|].
  - split.
    + intros [Hi Ht]. split; [exact Hi|]. exists t. split; [reflexivity|lia].
    + intros [Hi (t' & Ht' & Hle)]. injection Ht' as <-.
      split; [exact Hi|lia].
  - split; [intros [_ H]; discriminate|].
    intros [_ (t' & Ht' & _)]. discriminate.
Qed.

Lemma civil_injective d1 d2 :
  JsDate.YearFromDay d1 = JsDate.YearFromDay d2 ->
  JsDate.MonthFromDay d1 = JsDate.MonthFromDay d2 ->
  JsDate.DateFromDay d1 = JsDate.DateFromDay d2 ->
  d1 = d2.
Proof.
  intros Hy Hm Hd.
  pose proof (JsDate.MakeDay_civil d1 (JsDate.DateFromDay d1)) as H1.
  pose proof (JsDate.MakeDay_civil d2 (JsDate.DateFromDay d2)) as H2.
  rewrite Hy, Hm, Hd in H1. lia.
Qed.

(** Two valid dates are the same day when they fall on the same local day. *)
Lemma isSameDay_local_day env t1 t2 :
  isSameDay env (Some t1) (Some t2) = true
  <-> JsDate.Day (t1 + tza env) = JsDate.Day (t2 + tza env).
Proof.
  unfold isSameDay, JsDate.getFullYear, JsDate.getMonth, JsDate.getDate,
    JsDate.YearFromTime, JsDate.MonthFromTime, JsDate.DateFromTime,
    JsDate.LocalTime.
  split.
  - intros H. apply andb_prop in H. destruct H as [H Hd].
    apply andb_prop in H. destruct H as [Hy Hm].
    apply civil_injective; now apply Z.eqb_eq.
  - intros ->. now rewrite !Z.eqb_refl.
Qed.


(** An entry dated seven days before the local day of the clock is in the
    week view only while the local time of day is within the offset of local
    time. *)
Lemma seventh_day_kept_iff env st e :
  JsDate.Date_parse (date e)
  = Some ((JsDate.Day (now env + tza env) - 7) * JsDate.msPerDay)%Z ->
  In e (filterExpenses env st "week")
  <-> In e (expenses st)
      /\ (JsDate.TimeWithinDay (now env + tza env) <= tza env)%Z.
Proof.
  intros Hd. rewrite week_filter_keeps, Hd.
  unfold JsDate.Day, JsDate.TimeWithinDay, JsDate.msPerDay.
  split.
  - intros [Hi (t & [= <-] & Ht)]. split; [exact Hi|lia].
  - intros [Hi Ht]. split; [exact Hi|]. eexists. split; [reflexivity|lia].
Qed.


(** C4, at a failing input: at noon of 10 November 2024 in a zone five
    hours ahead of UTC (the clock's month counts from 0), an expense dated
    3 November, seven days before today, is not in the week view. *)
Theorem week_filter_drops_seventh_day :
  let env := {| now := 1731222000000; tza := 18000000 |} in
  let e := {| id := of_Z 1; amount := of_Z 50; category := "food";
              date := "2024-11-03"; note := "" |} in
  let st := {| allowance := of_Z 1000; goal := zero; expenses := [e] |} in
  (clock_year env, clock_month env, clock_day env) = (2024, 10, 10)%Z
  /\ JsDate.calendar_date (date e) = Some (2024, 11, 3)%Z
  /\ renderExpenses env st "week" = [].
Proof. vm_compute. repeat split. Qed.

(** C5, at a failing input: at noon of 10 November 2024 in a zone five
    hours behind UTC (the clock's month counts from 0), the today view leaves
    out the expense dated 10 November and shows the one dated 11 November. *)
Theorem today_filter_west_of_utc :
  let env := {| now := 1731258000000; tza := (-18000000)%Z |} in
  let entry d := {| id := of_Z 1; amount := of_Z 50; category := "food";
                    date := d; note := "" |} in
  let st := {| allowance := of_Z 1000; goal := zero;
               expenses := [entry "2024-11-09"; entry "2024-11-10";
                            entry "2024-11-11"] |} in
  (clock_year env, clock_month env, clock_day env) = (2024, 10, 10)%Z
  /\ map date (renderExpenses env st "today") = ["2024-11-11"].
Proof. vm_compute. repeat split. Qed.

(** ** Numerals read back *)

Module NumeralFacts.
Import JsNum Numeral.
Open Scope Z_scope.

Definition is_digits (ds : list Z) : Prop := Forall (fun d => 0 <= d <= 9) ds.

Lemma value_of_digits_snoc ds d :
  value_of_digits (ds ++ [d]) = 10 * value_of_digits ds + d.
Proof. unfold value_of_digits. now rewrite fold_left_app. Qed.

Lemma value_of_zeros n ds :
  value_of_digits (repeat 0 n ++ ds) = value_of_digits ds.
Proof.
  unfold value_of_digits. rewrite fold_left_app.
  replace (fold_left (fun acc d => 10 * acc + d) (repeat 0 n) 0) with 0;
    [reflexivity|].
  induction n as [|n IH]; cbn; [reflexivity|exact IH].
Qed.

Lemma digits_aux_app fuel : forall n acc,
  digits_aux fuel n acc = (digits_aux fuel n [] ++ acc)%list.
Proof.
  induction fuel as [|f IH]; intros n acc; cbn; [reflexivity|].
  destruct (n <? 10); [reflexivity|].
  rewrite (IH _ (_ :: acc)), (IH _ [_]), <- app_assoc. reflexivity.
Qed.

Lemma digits_aux_value fuel : forall n,
  0 <= n < 10 ^ Z.of_nat fuel -> value_of_digits (digits_aux fuel n []) = n.
Proof.
  induction fuel as [|f IH]; intros n Hn.
  - cbn in *. change (10 ^ 0) with 1 in Hn. lia.
  - cbn [digits_aux]. destruct (Z.ltb_spec n 10); [cbn; lia|].
    rewrite digits_aux_app, value_of_digits_snoc, IH; [lia|].
    rewrite Nat2Z.inj_succ, Z.pow_succ_r in Hn by lia. lia.
Qed.

Lemma digits_aux_digits fuel : forall n,
  0 <= n < 10 ^ Z.of_nat fuel -> is_digits (digits_aux fuel n []).
Proof.
  induction fuel as [|f IH]; intros n Hn; [constructor|].
  cbn [digits_aux]. destruct (Z.ltb_spec n 10).
  - repeat constructor; lia.
  - rewrite digits_aux_app. apply Forall_app. split.
    + apply IH. rewrite Nat2Z.inj_succ, Z.pow_succ_r in Hn by lia. lia.
    + repeat constructor; lia.
Qed.

Lemma digits_aux_head fuel : forall n,
  0 < n < 10 ^ Z.of_nat fuel ->
  exists d ds, digits_aux fuel n [] = d :: ds /\ 1 <= d <= 9.
Proof.
  induction fuel as [|f IH]; intros n Hn.
  - change (10 ^ Z.of_nat 0) with 1 in Hn. lia.
  - cbn [digits_aux]. destruct (Z.ltb_spec n 10).
    + exists n, []. split; [reflexivity|lia].
    + rewrite digits_aux_app.
      destruct (IH (n / 10)) as (d & ds & -> & Hd).
      { rewrite Nat2Z.inj_succ, Z.pow_succ_r in Hn by lia. lia. }
      exists d, (ds ++ [n mod 10])%list. split; [reflexivity|exact Hd].
Qed.

Lemma fuel_enough n : 0 <= n -> n < 10 ^ Z.of_nat (S (Z.to_nat (Z.log2 n))).
Proof.
  intros Hn. rewrite Nat2Z.inj_succ, Z2Nat.id by apply Z.log2_nonneg.
  destruct (Z.eq_dec n 0) as [->|Hne]; [cbn; lia|].
  pose proof (Z.log2_spec n ltac:(lia)) as [_ H].
  eapply Z.lt_le_trans; [exact H|].
  apply Z.pow_le_mono_l. pose proof (Z.log2_nonneg n). lia.
Qed.

Lemma digits_of_value n : 0 <= n -> value_of_digits (digits_of n) = n.
Proof. intros Hn. apply digits_aux_value. split; [lia|now apply fuel_enough]. Qed.

Lemma digits_of_digits n : 0 <= n -> is_digits (digits_of n).
Proof. intros Hn. apply digits_aux_digits. split; [lia|now apply fuel_enough]. Qed.

Lemma digits_of_head n :
  0 < n -> exists d ds, digits_of n = d :: ds /\ 1 <= d <= 9.
Proof. intros Hn. apply digits_aux_head. split; [lia|apply fuel_enough; lia]. Qed.

Lemma digits_of_zero : digits_of 0 = [0].
Proof. reflexivity. Qed.

Lemma digit_of_digit_char d :
  0 <= d <= 9 -> JsDate.digit (digit_char d) = Some d.
Proof.
  intros Hd.
  assert (H : d = 0 \/ d = 1 \/ d = 2 \/ d = 3 \/ d = 4 \/ d = 5 \/ d = 6
              \/ d = 7 \/ d = 8 \/ d = 9) by lia.
  repeat (destruct H as [->|H]; [reflexivity|]). now subst.
Qed.

Lemma digit_char_plain d :
  0 <= d <= 9 ->
  Ascii.eqb (digit_char d) "-" = false
  /\ Ascii.eqb (digit_char d) "." = false
  /\ Ascii.eqb (digit_char d) "e" = false
  /\ Ascii.eqb (digit_char d) "E" = false.
Proof.
  intros Hd.
  assert (H : d = 0 \/ d = 1 \/ d = 2 \/ d = 3 \/ d = 4 \/ d = 5 \/ d = 6
              \/ d = 7 \/ d = 8 \/ d = 9) by lia.
  repeat (destruct H as [->|H]; [repeat split|]). subst. repeat split.
Qed.

Definition no_digit_ahead (s : string) : Prop :=
  match s with
  | String c _ => is_digit c = false
  | EmptyString => True
  end.

Lemma read_digits_spec ds rest :
  is_digits ds -> no_digit_ahead rest ->
  read_digits (string_of_digits ds ++ rest) = (ds, rest).
Proof.
  intros Hds Hrest. induction Hds as [|d ds Hd _ IH].
  - cbn. destruct rest as [|c r]; [reflexivity|].
    cbn in *. unfold is_digit in Hrest.
    destruct (JsDate.digit c); [discriminate|reflexivity].
  - change (string_of_digits (d :: ds) ++ rest)%string
      with (String (digit_char d) (string_of_digits ds ++ rest)).
    cbn [read_digits]. rewrite (digit_of_digit_char d Hd), IH. reflexivity.
Qed.


Lemma decimal_places_spec fuel d : forall k0 k,
  decimal_places fuel d k0 = Some k -> k0 <= k /\ (10 ^ k) mod d = 0.
Proof.
  induction fuel as [|f IH]; intros k0 k; cbn [decimal_places];
    destruct (Z.eqb_spec ((10 ^ k0) mod d) 0) as [E|E].
  - intros [= <-]. split; [lia|exact E].
  - discriminate.
  - intros [= <-]. split; [lia|exact E].
  - intros H. apply IH in H. lia.
Qed.

Lemma places_spec q k :
  places q = Some k -> 0 <= k /\ (10 ^ k) mod Zpos (Qden q) = 0.
Proof. apply decimal_places_spec. Qed.

Lemma scale_places (q : Qc) k :
  0 <= k -> (10 ^ k) mod Zpos (Qden q) = 0 ->
  scale (Qnum q <? 0) (Z.abs (Qnum q) * (10 ^ k / Zpos (Qden q))) (- k) = q.
Proof.
  intros Hk Hd. apply Qc_is_canon. unfold scale.
  cbn [this Q2Qc]. rewrite Qred_correct.
  destruct q as [[n d] Hc]. cbn [this Qnum Qden] in *.
  assert (Hp : 0 < 10 ^ k) by (apply Z.pow_pos_nonneg; lia).
  apply Z.div_exact in Hd; [|lia].
  set (c := 10 ^ k / Z.pos d) in *.
  destruct (Z.leb_spec 0 (- k)).
  - assert (k = 0) by lia. subst k. change (10 ^ (-0)) with 1.
    change (10 ^ 0) with 1 in *.
    destruct (Z.eq_mul_1_nonneg (Z.pos d) c ltac:(lia) (eq_sym Hd))
      as [Hd1 Hc1].
    rewrite Hc1.
    destruct (Z.ltb_spec n 0); unfold Qeq, Qopp, inject_Z; cbn [Qnum Qden]; lia.
  - rewrite Z.opp_involutive.
    destruct (Z.ltb_spec n 0); unfold Qeq, Qopp; cbn [Qnum Qden];
      rewrite Z2Pos.id by lia; rewrite Hd; nia.
Qed.

Definition number_ends (s : string) : Prop :=
  match s with
  | String c _ => Json.continues_number c = false
  | EmptyString => True
  end.

Lemma number_ends_no_digit rest : number_ends rest -> no_digit_ahead rest.
Proof.
  destruct rest as [|c r]; [trivial|]. cbn. unfold Json.continues_number.
  destruct (is_digit c); [discriminate|reflexivity].
Qed.

Lemma append_assoc (a b c : string) : ((a ++ b) ++ c = a ++ b ++ c)%string.
Proof. induction a as [|x a IH]; cbn; [reflexivity|now rewrite IH]. Qed.

(** The digits that [to_string] writes: at least one before the point, no
    leading zero, [k] after it, and their value. *)
Lemma padded_digits m k :
  0 <= m -> 0 <= k -> (m = 0 -> k = 0) ->
  let ds := digits_of m in
  let padded := (repeat 0 (Z.to_nat (k + 1) - List.length ds) ++ ds)%list in
  let n := (List.length padded - Z.to_nat k)%nat in
  exists i0 irest,
    firstn n padded = i0 :: irest
    /\ (i0 = 0 -> irest = [])
    /\ is_digits padded
    /\ Z.of_nat (List.length (skipn n padded)) = k
    /\ value_of_digits padded = m.
Proof.
  intros Hm Hk Hz. cbv zeta.
  pose proof (digits_of_digits m Hm) as Hds.
  pose proof (digits_of_value m Hm) as Hv.
  remember (digits_of m) as ds eqn:Eds.
  remember (Z.to_nat (k + 1) - List.length ds)%nat as pad eqn:Epad.
  assert (Hpad : is_digits (repeat 0 pad ++ ds)).
  { apply Forall_app. split; [|exact Hds].
    apply Forall_forall. intros x Hx. apply repeat_spec in Hx. lia. }
  assert (Hlen : List.length (repeat 0 pad ++ ds)
                 = (pad + List.length ds)%nat).
  { now rewrite length_app, repeat_length. }
  assert (Hval : value_of_digits (repeat 0 pad ++ ds) = m).
  { now rewrite value_of_zeros. }
  assert (Hsk : Z.of_nat (List.length
                  (skipn (List.length (repeat 0 pad ++ ds) - Z.to_nat k)
                     (repeat 0 pad ++ ds))) = k).
  { rewrite length_skipn, Hlen. lia. }
  destruct pad as [|p].
  - (* no padding: the digits of m are more than k *)
    cbn [repeat app] in *.
    destruct (Z.eq_dec m 0) as [E|Hne].
    + rewrite E, digits_of_zero in Eds. rewrite (Hz E) in *.
      rewrite Eds in *. exists 0, []. cbn. repeat split; auto.
    + destruct (digits_of_head m ltac:(lia)) as (d & r & Hd & Hr).
      rewrite <- Eds in Hd. rewrite Hd in *.
      assert (Hn : exists n', (List.length (d :: r) - Z.to_nat k = S n')%nat).
      { exists (List.length r - Z.to_nat k)%nat. cbn [List.length] in *. lia. }
      destruct Hn as [n' Hn']. rewrite Hn' in *. cbn [firstn].
      exists d, (firstn n' r). repeat split; auto. lia.
  - (* padding: one zero before the point *)
    assert (Hn : (List.length (repeat 0%Z (S p) ++ ds) - Z.to_nat k = 1)%nat).
    { rewrite Hlen. lia. }
    rewrite Hn in *. cbn [repeat app firstn]. exists 0, [].
    repeat split; auto.
Qed.

Lemma places_of_zero (q : Qc) k :
  places q = Some k -> Qnum q = 0 -> k = 0.
Proof.
  destruct q as [[n d] Hc]. cbn [this Qnum]. intros Hp ->.
  assert (d = 1%positive) as ->.
  { cbn in Hc. now injection Hc. }
  cbn in Hp. now injection Hp.
Qed.

Lemma parse_fraction_none rest :
  number_ends rest -> Json.parse_fraction rest = Some ([], rest).
Proof.
  destruct rest as [|c r]; [reflexivity|]. cbn. unfold Json.continues_number.
  destruct (Ascii.eqb c "."); [|reflexivity].
  rewrite orb_true_r. discriminate.
Qed.

Lemma parse_fraction_some fs rest :
  is_digits fs -> fs <> [] -> number_ends rest ->
  Json.parse_fraction (String "." (string_of_digits fs ++ rest))
  = Some (fs, rest).
Proof.
  intros Hfs Hne Hrest. cbn [Json.parse_fraction Ascii.eqb Bool.eqb].
  cbn [andb]. rewrite read_digits_spec by auto using number_ends_no_digit.
  destruct fs; [contradiction|reflexivity].
Qed.

Lemma parse_exponent_none rest :
  number_ends rest -> Json.parse_exponent rest = Some (0, rest).
Proof.
  destruct rest as [|c r]; [reflexivity|]. cbn. unfold Json.continues_number.
  destruct (Ascii.eqb c "e"), (Ascii.eqb c "E"); try reflexivity;
    rewrite ?orb_true_r; discriminate.
Qed.

Lemma to_string_parse q text rest :
  to_string q = Some text -> number_ends rest ->
  Json.parse_number (text ++ rest) = Some (Fin q, rest).
Proof.
  unfold to_string. destruct (places q) as [k|] eqn:Hp; [|discriminate].
  pose proof (places_of_zero q k Hp) as Hq0.
  apply places_spec in Hp. destruct Hp as [Hk Hd].
  intros [= <-] Hrest.
  set (m := Z.abs (Qnum q) * (10 ^ k / Z.pos (Qden q))).
  assert (Hpow : 0 < 10 ^ k) by (apply Z.pow_pos_nonneg; lia).
  assert (Hm : 0 <= m).
  { subst m. apply Z.mul_nonneg_nonneg; [lia|]. apply Z.div_pos; lia. }
  assert (Hz : m = 0 -> k = 0).
  { subst m. intros H0. apply Hq0. apply Z.mul_eq_0 in H0.
    destruct H0 as [H0|H0]; [lia|].
    apply Z.div_exact in Hd; [|lia]. rewrite H0 in Hd. lia. }
  destruct (padded_digits m k Hm Hk Hz)
    as (i0 & irest & Hfirst & Hlead & Hdig & Hlen & Hval).
  cbv zeta in *.
  set (padded := (repeat 0 (Z.to_nat (k + 1) - List.length (digits_of m))
                    ++ digits_of m)%list) in *.
  set (n := (List.length padded - Z.to_nat k)%nat) in *.
  rewrite Hfirst.
  assert (Hsplit : padded = ((i0 :: irest) ++ skipn n padded)%list).
  { rewrite <- Hfirst. symmetry. apply firstn_skipn. }
  set (frac := skipn n padded) in *.
  assert (Hparts : is_digits (i0 :: irest) /\ is_digits frac).
  { apply Forall_app. now rewrite <- Hsplit. }
  destruct Hparts as [Hint Hfrac].
  assert (Hi0 : 0 <= i0 <= 9) by now inversion Hint.
  clearbody frac. clear Hfirst n. clearbody padded.
  assert (Hun : forall negative,
             Json.parse_unsigned negative
               (string_of_digits (i0 :: irest)
                ++ (if k =? 0 then "" else "." ++ string_of_digits frac)
                ++ rest)
             = Some (Fin (scale negative m (- k)), rest)).
  { intros negative. unfold Json.parse_unsigned.
    rewrite read_digits_spec; [|exact Hint|].
    2:{ destruct (k =? 0); [now apply number_ends_no_digit|reflexivity]. }
    replace ((i0 =? 0) && negb (Nat.eqb (List.length irest) 0)) with false.
    2:{ destruct (Z.eqb_spec i0 0) as [E|E]; [|reflexivity].
        now rewrite (Hlead E). }
    destruct (Z.eqb_spec k 0) as [E|E].
    - assert (frac = []) as -> by (destruct frac; [reflexivity|cbn in Hlen; lia]).
      cbn [append]. rewrite parse_fraction_none, parse_exponent_none by exact Hrest.
      rewrite app_nil_r in Hsplit. rewrite app_nil_r, <- Hsplit, Hval.
      cbn [List.length]. repeat f_equal. lia.
    - change ("." ++ string_of_digits frac)%string
        with (String "." (string_of_digits frac)).
      cbn [append].
      rewrite parse_fraction_some; auto.
      2:{ intros ->. cbn in Hlen. lia. }
      rewrite parse_exponent_none by exact Hrest.
      change (i0 :: irest ++ frac)%list with ((i0 :: irest) ++ frac)%list.
      rewrite <- Hsplit, Hval, Hlen. reflexivity. }
  rewrite <- (scale_places q k Hk Hd) at 2. fold m.
  rewrite !append_assoc.
  destruct (Qnum q <? 0).
  - change ("-" ++ ?x)%string with (String "-" x).
    cbn [append Json.parse_number Ascii.eqb Bool.eqb andb]. apply Hun.
  - cbn [append].
    change (string_of_digits (i0 :: irest) ++ ?x)%string
      with (String (digit_char i0) (string_of_digits irest ++ x)) in *.
    cbn [Json.parse_number].
    destruct (digit_char_plain i0 Hi0) as (-> & _). apply Hun.
Qed.

End NumeralFacts.

(** ** JSON texts read back *)

Module JsonFacts.
Import JsNum Json NumeralFacts.
Open Scope string_scope.

Lemma short_escape_unescape c e :
  short_escape c = Some e ->
  Ascii.eqb e "u" = false /\ unescape e = Some c.
Proof.
  unfold short_escape.
  destruct (Ascii.eqb_spec c quote) as [->|_]; [intros [= <-]; split; reflexivity|].
  destruct (Ascii.eqb_spec c backslash) as [->|_];
    [intros [= <-]; split; reflexivity|].
  assert (Hc : forall n, Z.of_nat (nat_of_ascii c) = Z.of_nat n ->
                         (n < 256)%nat -> c = ascii_of_nat n).
  { intros n Hn _. apply Nat2Z.inj in Hn. rewrite <- Hn.
    symmetry. apply ascii_nat_embedding. }
  repeat match goal with
         | |- context [(?a =? Z.pos ?b)%Z] =>
             destruct (Z.eqb_spec a (Z.pos b)) as [E|_];
             [apply (Hc (Pos.to_nat b)) in E; [|cbn; lia]; rewrite E;
              intros [= <-]; split; reflexivity|]
         end.
  discriminate.
Qed.

Lemma short_escape_none c :
  short_escape c = None ->
  Ascii.eqb c quote = false /\ Ascii.eqb c backslash = false.
Proof.
  unfold short_escape.
  destruct (Ascii.eqb c quote); [discriminate|].
  destruct (Ascii.eqb c backslash); [discriminate|]. auto.
Qed.

Lemma hex_digit_hex_char h :
  (0 <= h <= 15)%Z -> hex_digit (hex_char h) = Some h.
Proof.
  intros Hh.
  assert (H : (h = 0 \/ h = 1 \/ h = 2 \/ h = 3 \/ h = 4 \/ h = 5 \/ h = 6
               \/ h = 7 \/ h = 8 \/ h = 9 \/ h = 10 \/ h = 11 \/ h = 12
               \/ h = 13 \/ h = 14 \/ h = 15)%Z) by lia.
  repeat (destruct H as [->|H]; [reflexivity|]). now subst.
Qed.

Lemma parse_chars_escape c r :
  parse_chars (escape c ++ r) = prepend (String c "") (parse_chars r).
Proof.
  unfold escape. destruct (short_escape c) as [e|] eqn:E.
  - apply short_escape_unescape in E. destruct E as [Eu Ee].
    change (parse_chars (String backslash (String e r))
            = prepend (String c "") (parse_chars r)).
    cbn [parse_chars]. change (Ascii.eqb backslash quote) with false.
    change (Ascii.eqb backslash backslash) with true. cbv iota.
    now rewrite Eu, Ee.
  - apply short_escape_none in E. destruct E as [Eq Eb].
    set (n := Z.of_nat (nat_of_ascii c)).
    destruct (Z.ltb_spec n 32) as [Hn|Hn].
    + pose proof (Nat2Z.is_nonneg (nat_of_ascii c)) as Hn0. fold n in Hn0.
      change (parse_chars
                (String backslash (String "u" (String "0" (String "0"
                   (String (hex_char (n / 16))
                      (String (hex_char (n mod 16)) r))))))
              = prepend (String c "") (parse_chars r)).
      cbn [parse_chars]. change (Ascii.eqb backslash quote) with false.
      change (Ascii.eqb backslash backslash) with true.
      change (Ascii.eqb "u" "u") with true. cbv iota.
      unfold hex4. change (hex_digit "0") with (Some 0%Z).
      rewrite !hex_digit_hex_char by lia.
      replace (4096 * 0 + 256 * 0 + 16 * (n / 16) + n mod 16)%Z with n by lia.
      unfold code_unit. destruct (Z.ltb_spec n 128); [|lia].
      unfold byte, n. now rewrite Nat2Z.id, ascii_nat_embedding.
    + change (parse_chars (String c r) = prepend (String c "") (parse_chars r)).
      cbn [parse_chars]. rewrite Eq, Eb.
      destruct (Nat.ltb_spec (nat_of_ascii c) 32) as [Hlt|_]; [|reflexivity].
      unfold n in Hn. lia.
Qed.

Lemma parse_chars_escape_all s rest :
  parse_chars (escape_all s ++ String quote rest) = Some (s, rest).
Proof.
  induction s as [|c s IH].
  - reflexivity.
  - cbn [escape_all]. rewrite append_assoc, parse_chars_escape, IH.
    reflexivity.
Qed.


(** What may follow a value inside an array or an object. *)
Definition delimited (rest : string) : Prop :=
  match rest with
  | EmptyString => True
  | String c _ => c = ","%char \/ c = "]"%char \/ c = "}"%char
  end.

Lemma delimited_number_ends rest : delimited rest -> number_ends rest.
Proof.
  destruct rest as [|c r]; [trivial|].
  intros [->|[->| ->]]; reflexivity.
Qed.

Lemma parse_number_head s v r :
  parse_number s = Some (v, r) ->
  exists c s', s = String c s' /\ (c = "-"%char \/ Numeral.is_digit c = true).
Proof.
  destruct s as [|c s']; [discriminate|]. intros H. exists c, s'.
  split; [reflexivity|]. cbn [parse_number] in H.
  destruct (Ascii.eqb_spec c "-") as [->|_]; [now left|]. right.
  unfold parse_unsigned in H. cbn [Numeral.read_digits] in H.
  unfold Numeral.is_digit. destruct (JsDate.digit c); [reflexivity|discriminate].
Qed.

Lemma parse_value_of_number f s v r :
  parse_number s = Some (v, r) -> parse_value (S f) s = Some (JNum v, r).
Proof.
  intros H. destruct (parse_number_head _ _ _ H) as (c & s' & -> & Hc).
  assert (Hplain : is_ws c = false
                   /\ Ascii.eqb c "n" = false /\ Ascii.eqb c "t" = false
                   /\ Ascii.eqb c "f" = false /\ Ascii.eqb c quote = false
                   /\ Ascii.eqb c "[" = false /\ Ascii.eqb c "{" = false).
  { destruct Hc as [->|Hc]; [repeat split|].
    assert (Hne : forall x, Numeral.is_digit x = false -> Ascii.eqb c x = false).
    { intros x Hx. destruct (Ascii.eqb_spec c x) as [->|_];
        [congruence|reflexivity]. }
    split; [|repeat split; apply Hne; reflexivity].
    unfold is_ws. unfold Numeral.is_digit, JsDate.digit in Hc.
    destruct (Z.leb_spec 48 (Z.of_nat (nat_of_ascii c))); [|discriminate Hc].
    repeat match goal with
           | |- context [Nat.eqb ?a ?b] =>
               destruct (Nat.eqb_spec a b); [lia|]
           end. reflexivity. }
  destruct Hplain as (Hw & H1 & H2 & H3 & H4 & H5 & H6).
  cbn [parse_value skip_ws]. rewrite Hw, H1, H2, H3, H4, H5, H6, H.
  reflexivity.
Qed.

Lemma parse_value_string f s rest :
  parse_value (S f) (stringify_string s ++ rest) = Some (JStr s, rest).
Proof.
  unfold stringify_string.
  change (String quote (escape_all s ++ String quote "") ++ rest)
    with (String quote ((escape_all s ++ String quote "") ++ rest)).
  rewrite append_assoc.
  change (String quote "" ++ rest) with (String quote rest).
  change (parse_value (S f) (String quote ?x))
    with (match parse_chars x with
          | Some (t, r') => Some (JStr t, r')
          | None => None
          end).
  now rewrite parse_chars_escape_all.
Qed.

(** A value whose text reads back, whatever delimiter follows. *)
Definition reads_back (f : nat) (v : value) (text : string) : Prop :=
  forall rest, delimited rest -> parse_value f (text ++ rest) = Some (v, rest).

Lemma reads_back_string f s : reads_back (S f) (JStr s) (stringify_string s).
Proof. intros rest _. apply parse_value_string. Qed.

Definition representable_num (n : num) : Prop :=
  match n with
  | Fin q => Numeral.places q <> None
  | _ => False
  end.

Lemma reads_back_num f n :
  representable_num n -> reads_back (S f) (JNum n) (stringify_num n).
Proof.
  destruct n as [| |q]; try contradiction. cbn [representable_num].
  intros Hp rest Hrest. cbn [stringify_num].
  destruct (Numeral.to_string q) as [text|] eqn:E.
  - apply parse_value_of_number. apply to_string_parse; [exact E|].
    now apply delimited_number_ends.
  - unfold Numeral.to_string in E. destruct (Numeral.places q); [discriminate|].
    contradiction.
Qed.

Lemma parse_members_step f acc k v tv sep rest :
  reads_back f v tv ->
  sep = ","%char \/ sep = "}"%char ->
  parse_members (S f) acc (stringify_member k tv ++ String sep rest)
  = if Ascii.eqb sep "," then parse_members f (put k v acc) rest
    else Some (put k v acc, rest).
Proof.
  intros Hv Hsep. unfold stringify_member, stringify_string.
  change (String quote ?x ++ ?y) with (String quote (x ++ y)).
  change (String quote ?x ++ ?y) with (String quote (x ++ y)).
  rewrite !append_assoc.
  change (String quote "" ++ ?x) with (String quote x).
  change (":" ++ ?x) with (String ":" x).
  cbn [parse_members].
  change (skip_ws (String quote ?x)) with (String quote x).
  cbn [starts_with tail]. rewrite Ascii.eqb_refl, parse_chars_escape_all.
  change (skip_ws (String ":" ?x)) with (String ":" x).
  cbn [starts_with tail]. rewrite Ascii.eqb_refl.
  rewrite Hv by (destruct Hsep as [->| ->]; cbn; auto).
  destruct Hsep as [->| ->]; reflexivity.
Qed.

(** A value whose text reads back with any fuel from [f0] on. *)
Definition reads_back_from (f0 : nat) (v : value) (text : string) : Prop :=
  forall f, (f0 <= f)%nat -> reads_back f v text.

Definition member_text (m : string * value) : string :=
  stringify_member (fst m) (stringify (snd m)).

Definition put_all (l acc : list (string * value)) : list (string * value) :=
  fold_left (fun a m => put (fst m) (snd m) a) l acc.

Lemma parse_members_spec f0 l : forall acc rest f,
  l <> [] ->
  (forall m, In m l -> reads_back_from f0 (snd m) (stringify (snd m))) ->
  (List.length l + f0 <= f)%nat ->
  parse_members f acc (String.concat "," (map member_text l) ++ String "}" rest)
  = Some (put_all l acc, rest).
Proof.
  induction l as [|m l IH]; intros acc rest f Hne Hl Hf; [contradiction|].
  destruct f as [|f]; [cbn in Hf; lia|]. cbn [List.length] in Hf.
  assert (Hm : reads_back f (snd m) (stringify (snd m))).
  { apply Hl; [now left|lia]. }
  destruct l as [|m' l].
  - cbn [map String.concat]. unfold member_text at 1.
    rewrite (parse_members_step f acc (fst m) (snd m) _ "}" rest Hm); auto.
  - cbn [map String.concat]. rewrite !append_assoc.
    change ("," ++ ?x) with (String "," x).
    unfold member_text at 1.
    rewrite (parse_members_step f acc (fst m) (snd m) _ "," _ Hm); auto.
    cbn [Ascii.eqb Bool.eqb]. 
    change (String.concat "," (member_text m' :: map member_text l))
      with (String.concat "," (map member_text (m' :: l))).
    apply IH; [discriminate| |cbn [List.length] in *; lia].
    intros x Hx. apply Hl. now right.
Qed.

Lemma parse_elements_step f v tv sep rest :
  reads_back f v tv ->
  sep = ","%char \/ sep = "]"%char ->
  parse_elements (S f) (tv ++ String sep rest)
  = if Ascii.eqb sep "," then
      match parse_elements f rest with
      | Some (l, r) => Some (v :: l, r)
      | None => None
      end
    else Some ([v], rest).
Proof.
  intros Hv Hsep. cbn [parse_elements].
  rewrite Hv by (destruct Hsep as [->| ->]; cbn; auto).
  destruct Hsep as [->| ->]; reflexivity.
Qed.

Lemma parse_elements_spec f0 l : forall rest f,
  l <> [] ->
  (forall v, In v l -> reads_back_from f0 v (stringify v)) ->
  (List.length l + f0 <= f)%nat ->
  parse_elements f (String.concat "," (map stringify l) ++ String "]" rest)
  = Some (l, rest).
Proof.
  induction l as [|v l IH]; intros rest f Hne Hl Hf; [contradiction|].
  destruct f as [|f]; [cbn in Hf; lia|]. cbn [List.length] in Hf.
  assert (Hv : reads_back f v (stringify v)).
  { apply Hl; [now left|lia]. }
  destruct l as [|v' l].
  - cbn [map String.concat].
    rewrite (parse_elements_step f v _ "]" rest Hv); auto.
  - cbn [map String.concat]. rewrite !append_assoc.
    change ("," ++ ?x) with (String "," x).
    rewrite (parse_elements_step f v _ "," _ Hv); auto.
    cbn [Ascii.eqb Bool.eqb].
    change (String.concat "," (stringify v' :: map stringify l))
      with (String.concat "," (map stringify (v' :: l))).
    rewrite IH; [reflexivity|discriminate| |cbn [List.length] in *; lia].
    intros x Hx. apply Hl. now right.
Qed.


Lemma parse_value_not_bracket f s res :
  parse_value f s = Some res -> starts_with "]" (skip_ws s) = false.
Proof.
  destruct f as [|f]; [discriminate|]. cbn [parse_value].
  destruct (skip_ws s) as [|c x]; [discriminate|]. cbn [starts_with].
  destruct (Ascii.eqb_spec c "]") as [->|_]; [|reflexivity].
  cbn. discriminate.
Qed.

Lemma length_append (a b : string) :
  String.length (a ++ b) = (String.length a + String.length b)%nat.
Proof. induction a as [|c a IH]; cbn; [reflexivity|now rewrite IH]. Qed.

Lemma append_nil_r (a : string) : a ++ "" = a.
Proof. induction a as [|c a IH]; cbn; [reflexivity|now rewrite IH]. Qed.

Lemma reads_back_array f0 l :
  (forall v, In v l -> reads_back_from f0 v (stringify v)) ->
  reads_back_from (S (List.length l + f0)) (JArr l) (stringify (JArr l)).
Proof.
  intros Hl f Hf rest _. destruct f as [|f]; [lia|]. cbn [stringify].
  rewrite !append_assoc.
  change ("[" ++ ?x) with (String "[" x). change ("]" ++ ?x) with (String "]" x).
  change (parse_value (S f) (String "[" ?x))
    with (if starts_with "]" (skip_ws x) then Some (JArr [], tail (skip_ws x))
          else match parse_elements f x with
               | Some (l, r') => Some (JArr l, r')
               | None => None
               end).
  destruct l as [|v l]; [reflexivity|].
  pose proof (parse_elements_spec f0 (v :: l) rest f ltac:(discriminate) Hl
                ltac:(lia)) as Hp.
  rewrite Hp.
  destruct f as [|f']; [discriminate Hp|]. cbn [parse_elements] in Hp.
  destruct (parse_value f' _) as [res|] eqn:E; [|discriminate].
  now rewrite (parse_value_not_bracket _ _ _ E).
Qed.

Lemma member_text_head m rest :
  exists y, member_text m ++ rest = String quote y.
Proof. eexists. reflexivity. Qed.

Lemma reads_back_object f0 l :
  l <> [] -> put_all l [] = l ->
  (forall m, In m l -> reads_back_from f0 (snd m) (stringify (snd m))) ->
  reads_back_from (S (List.length l + f0)) (JObj l) (stringify (JObj l)).
Proof.
  intros Hne Hput Hl f Hf rest _. destruct f as [|f]; [lia|]. cbn [stringify].
  change (map (fun m => stringify_member (fst m) (stringify (snd m))) l)
    with (map member_text l).
  rewrite !append_assoc.
  change ("{" ++ ?x) with (String "{" x). change ("}" ++ ?x) with (String "}" x).
  change (parse_value (S f) (String "{" ?x))
    with (if starts_with "}" (skip_ws x) then Some (JObj [], tail (skip_ws x))
          else match parse_members f [] x with
               | Some (l, r') => Some (JObj l, r')
               | None => None
               end).
  rewrite (parse_members_spec f0 l [] rest f Hne Hl ltac:(lia)), Hput.
  destruct l as [|m l]; [contradiction|].
  assert (Hh : exists y, String.concat "," (map member_text (m :: l))
                         ++ String "}" rest = String quote y).
  { cbn [map String.concat]. destruct (map member_text l).
    - apply member_text_head.
    - rewrite append_assoc. apply member_text_head. }
  destruct Hh as [y ->]. reflexivity.
Qed.

End JsonFacts.

(** ** The fuel of the JSON parser *)

Module FuelFacts.
Import JsNum Json.
Open Scope string_scope.

Lemma skip_ws_length s : (String.length (skip_ws s) <= String.length s)%nat.
Proof.
  induction s as [|c s IH]; cbn; [lia|].
  destruct (is_ws c); cbn; lia.
Qed.

Lemma tail_length s : (String.length (tail s) <= String.length s)%nat.
Proof. destruct s; cbn; lia. Qed.

Lemma starts_with_tail c s :
  starts_with c s = true -> (String.length (tail s) < String.length s)%nat.
Proof. destruct s; cbn; [discriminate|lia]. Qed.

Lemma read_digits_length s ds r :
  Numeral.read_digits s = (ds, r) -> (String.length r + List.length ds = String.length s)%nat.
Proof.
  revert ds r. induction s as [|c s IH]; intros ds r; cbn.
  - intros [= <- <-]. reflexivity.
  - destruct (JsDate.digit c).
    + destruct (Numeral.read_digits s) as [ds' r'] eqn:E.
      intros [= <- <-]. specialize (IH _ _ eq_refl). cbn. lia.
    + intros [= <- <-]. cbn. lia.
Qed.

Lemma read_exponent_length s e r :
  Numeral.read_exponent s = Some (e, r) -> (String.length r <= String.length s)%nat.
Proof.
  unfold Numeral.read_exponent. destruct s as [|c s]; [discriminate|].
  destruct (_ || _); [|discriminate].
  set (p := match s with
            | String c' r' =>
                if Ascii.eqb c' "+" then (1%Z, r')
                else if Ascii.eqb c' "-" then ((-1)%Z, r')
                else (1%Z, s)
            | EmptyString => (1%Z, s)
            end).
  assert (Hp : (String.length (snd p) <= String.length s)%nat).
  { subst p. destruct s as [|c' r']; cbn; [lia|].
    destruct (Ascii.eqb c' "+"); [cbn; lia|].
    destruct (Ascii.eqb c' "-"); cbn; lia. }
  destruct p as [sign r1]. cbn [snd] in Hp.
  destruct (Numeral.read_digits r1) as [[|z l] r2] eqn:E; [discriminate|].
  intros [= _ <-]. apply read_digits_length in E. cbn in *. lia.
Qed.

Lemma parse_chars_length : forall n s t r,
  (String.length s <= n)%nat -> parse_chars s = Some (t, r) -> (String.length r < String.length s)%nat.
Proof.
  induction n as [|n IH]; intros s t r Hn; destruct s as [|c s];
    try discriminate; [cbn in Hn; lia|].
  cbn [parse_chars]. cbn [String.length] in Hn.
  destruct (Ascii.eqb c quote); [intros [= _ <-]; cbn; lia|].
  destruct (Ascii.eqb c backslash).
  - destruct s as [|e r1]; [discriminate|].
    destruct (Ascii.eqb e "u").
    + destruct r1 as [|h1 [|h2 [|h3 [|h4 r2]]]]; try discriminate.
      destruct (hex4 h1 h2 h3 h4); [|discriminate].
      destruct (parse_chars r2) as [[t' r']|] eqn:E; [|discriminate].
      intros [= _ <-]. apply IH in E; cbn in *; lia.
    + destruct (unescape e); [|discriminate].
      destruct (parse_chars r1) as [[t' r']|] eqn:E; [|discriminate].
      intros [= _ <-]. apply IH in E; cbn in *; lia.
  - destruct (_ <? _)%nat; [discriminate|].
    destruct (parse_chars s) as [[t' r']|] eqn:E; [|discriminate].
    intros [= _ <-]. apply IH in E; cbn in *; lia.
Qed.

Lemma parse_unsigned_length b s v r :
  parse_unsigned b s = Some (v, r) -> (String.length r < String.length s)%nat.
Proof.
  unfold parse_unsigned.
  destruct (Numeral.read_digits s) as [[|d ds] s2] eqn:E; [discriminate|].
  apply read_digits_length in E. cbn [List.length] in E.
  destruct (_ && _); [discriminate|].
  destruct (parse_fraction s2) as [[fs s3]|] eqn:Ef; [|discriminate].
  assert (Hf : (String.length s3 <= String.length s2)%nat).
  { unfold parse_fraction in Ef. destruct s2 as [|c x].
    - injection Ef as _ <-. lia.
    - destruct (Ascii.eqb c ".").
      + destruct (Numeral.read_digits x) as [[|z l] r'] eqn:Ed; [discriminate|].
        injection Ef as _ <-. apply read_digits_length in Ed. cbn in *. lia.
      + injection Ef as _ <-. lia. }
  destruct (parse_exponent s3) as [[e s4]|] eqn:Ee; [|discriminate].
  assert (He : (String.length s4 <= String.length s3)%nat).
  { unfold parse_exponent in Ee. destruct s3 as [|c x].
    - injection Ee as _ <-. lia.
    - destruct (_ || _).
      + now apply read_exponent_length in Ee.
      + injection Ee as _ <-. lia. }
  intros [= _ <-]. lia.
Qed.

Lemma parse_number_length s v r :
  parse_number s = Some (v, r) -> (String.length r < String.length s)%nat.
Proof.
  destruct s as [|c s]; [discriminate|]. cbn [parse_number].
  destruct (Ascii.eqb c "-"); intros H; apply parse_unsigned_length in H;
    cbn in *; lia.
Qed.

Lemma strip_prefix_length p s r :
  strip_prefix p s = Some r -> (String.length r + String.length p = String.length s)%nat.
Proof.
  revert s. induction p as [|a p IH]; intros s; cbn.
  - intros [= <-]. lia.
  - destruct s as [|b s]; [discriminate|].
    destruct (Ascii.eqb a b); [|discriminate].
    intros H. apply IH in H. cbn. lia.
Qed.

Lemma expect_length lit v s res :
  lit <> "" -> expect lit v s = Some res -> (String.length (snd res) < String.length s)%nat.
Proof.
  unfold expect. intros Hl.
  destruct (strip_prefix lit s) as [r|] eqn:E; [|discriminate].
  intros [= <-]. apply strip_prefix_length in E. cbn.
  destruct lit; [contradiction|cbn in E; lia].
Qed.

(** One level of the descent, its recursive calls taken as parameters. *)
Definition value_step (pe : string -> option (list value * string))
    (pm : string -> option (list (string * value) * string))
    (s : string) : option (value * string) :=
  match skip_ws s with
  | EmptyString => None
  | String c r as s' =>
      if Ascii.eqb c "n" then expect "null" JNull s'
      else if Ascii.eqb c "t" then expect "true" (JBool true) s'
      else if Ascii.eqb c "f" then expect "false" (JBool false) s'
      else if Ascii.eqb c quote then
        match parse_chars r with
        | Some (t, r') => Some (JStr t, r')
        | None => None
        end
      else if Ascii.eqb c "[" then
        if starts_with "]" (skip_ws r) then Some (JArr [], tail (skip_ws r))
        else
          match pe r with
          | Some (l, r') => Some (JArr l, r')
          | None => None
          end
      else if Ascii.eqb c "{" then
        if starts_with "}" (skip_ws r) then Some (JObj [], tail (skip_ws r))
        else
          match pm r with
          | Some (l, r') => Some (JObj l, r')
          | None => None
          end
      else
        match parse_number s' with
        | Some (n, r') => Some (JNum n, r')
        | None => None
        end
  end.

Definition elements_step (pv : string -> option (value * string))
    (pe : string -> option (list value * string))
    (s : string) : option (list value * string) :=
  match pv s with
  | None => None
  | Some (v, r) =>
      let r' := skip_ws r in
      if starts_with "," r' then
        match pe (tail r') with
        | Some (l, r'') => Some (v :: l, r'')
        | None => None
        end
      else if starts_with "]" r' then Some ([v], tail r')
      else None
  end.

Definition members_step (pv : string -> option (value * string))
    (pm : list (string * value) -> string
          -> option (list (string * value) * string))
    (acc : list (string * value)) (s : string)
  : option (list (string * value) * string) :=
  if starts_with quote (skip_ws s) then
    match parse_chars (tail (skip_ws s)) with
    | None => None
    | Some (k, r1) =>
        if starts_with ":" (skip_ws r1) then
          match pv (tail (skip_ws r1)) with
          | None => None
          | Some (v, r3) =>
              let r4 := skip_ws r3 in
              if starts_with "," r4
              then pm (put k v acc) (tail r4)
              else if starts_with "}" r4
              then Some (put k v acc, tail r4)
              else None
          end
        else None
    end
  else None.

Lemma parse_value_S f s :
  parse_value (S f) s
  = value_step (parse_elements f) (parse_members f []) s.
Proof. reflexivity. Qed.

Lemma parse_elements_S f s :
  parse_elements (S f) s = elements_step (parse_value f) (parse_elements f) s.
Proof. reflexivity. Qed.

Lemma parse_members_S f acc s :
  parse_members (S f) acc s
  = members_step (parse_value f) (parse_members f) acc s.
Proof. reflexivity. Qed.


(** The descent consumes what it reads. *)
Lemma parse_consumes f :
  (forall s res, parse_value f s = Some res -> (String.length (snd res) < String.length s)%nat)
  /\ (forall s res, parse_elements f s = Some res ->
         (String.length (snd res) < String.length s)%nat)
  /\ (forall acc s res, parse_members f acc s = Some res ->
         (String.length (snd res) < String.length s)%nat).
Proof.
  induction f as [|f (IHv & IHe & IHm)]; [repeat split; discriminate|].
  repeat split.
  - intros s res. rewrite parse_value_S. unfold value_step.
    pose proof (skip_ws_length s) as Hs.
    destruct (skip_ws s) as [|c r]; [discriminate|]. cbn [String.length] in Hs.
    destruct (Ascii.eqb c "n");
      [intros H; apply expect_length in H; [cbn in *; lia|discriminate]|].
    destruct (Ascii.eqb c "t");
      [intros H; apply expect_length in H; [cbn in *; lia|discriminate]|].
    destruct (Ascii.eqb c "f");
      [intros H; apply expect_length in H; [cbn in *; lia|discriminate]|].
    destruct (Ascii.eqb c quote).
    { destruct (parse_chars r) as [[t r']|] eqn:E; [|discriminate].
      intros [= <-]. apply (parse_chars_length _ _ _ _ (le_n _)) in E.
      cbn. lia. }
    pose proof (skip_ws_length r) as Hr.
    pose proof (tail_length (skip_ws r)) as Ht.
    destruct (Ascii.eqb c "[").
    { destruct (starts_with "]" (skip_ws r)); [intros [= <-]; cbn; lia|].
      destruct (parse_elements f r) as [[l r']|] eqn:E; [|discriminate].
      intros [= <-]. apply IHe in E. cbn in *. lia. }
    destruct (Ascii.eqb c "{").
    { destruct (starts_with "}" (skip_ws r)); [intros [= <-]; cbn; lia|].
      destruct (parse_members f [] r) as [[l r']|] eqn:E; [|discriminate].
      intros [= <-]. apply IHm in E. cbn in *. lia. }
    destruct (parse_number (String c r)) as [[n r']|] eqn:E; [|discriminate].
    intros [= <-]. apply parse_number_length in E. cbn in *. lia.
  - intros s res. rewrite parse_elements_S. unfold elements_step.
    destruct (parse_value f s) as [[v r]|] eqn:E; [|discriminate].
    apply IHv in E. cbn [snd] in E. cbv zeta.
    pose proof (skip_ws_length r) as Hr.
    pose proof (tail_length (skip_ws r)) as Ht.
    destruct (starts_with "," (skip_ws r)).
    + destruct (parse_elements f (tail (skip_ws r))) as [[l r'']|] eqn:E2;
        [|discriminate].
      intros [= <-]. apply IHe in E2. cbn in *. lia.
    + destruct (starts_with "]" (skip_ws r)); [|discriminate].
      intros [= <-]. cbn. lia.
  - intros acc s res. rewrite parse_members_S. unfold members_step.
    pose proof (skip_ws_length s) as Hs.
    pose proof (tail_length (skip_ws s)) as Ht.
    destruct (starts_with quote (skip_ws s)); [|discriminate].
    destruct (parse_chars (tail (skip_ws s))) as [[k r1]|] eqn:E;
      [|discriminate].
    apply (parse_chars_length _ _ _ _ (le_n _)) in E.
    pose proof (skip_ws_length r1) as Hr1.
    pose proof (tail_length (skip_ws r1)) as Ht1.
    destruct (starts_with ":" (skip_ws r1)); [|discriminate].
    destruct (parse_value f (tail (skip_ws r1))) as [[v r3]|] eqn:Ev;
      [|discriminate].
    apply IHv in Ev. cbn [snd] in Ev. cbv zeta.
    pose proof (skip_ws_length r3) as Hr3.
    pose proof (tail_length (skip_ws r3)) as Ht3.
    destruct (starts_with "," (skip_ws r3)).
    + intros H. apply IHm in H. lia.
    + destruct (starts_with "}" (skip_ws r3)); [|discriminate].
      intros [= <-]. cbn. lia.
Qed.


Lemma value_step_ext pe pe' pm pm' s :
  (forall r, (String.length r < String.length s)%nat -> pe r = pe' r) ->
  (forall r, (String.length r < String.length s)%nat -> pm r = pm' r) ->
  value_step pe pm s = value_step pe' pm' s.
Proof.
  intros He Hm. unfold value_step. pose proof (skip_ws_length s) as Hs.
  destruct (skip_ws s) as [|c r]; [reflexivity|]. cbn [String.length] in Hs.
  now rewrite He, Hm by lia.
Qed.

Lemma elements_step_ext pv pv' pe pe' s :
  pv s = pv' s ->
  (forall res, pv s = Some res -> (String.length (snd res) < String.length s)%nat) ->
  (forall r, (String.length r < String.length s)%nat -> pe r = pe' r) ->
  elements_step pv pe s = elements_step pv' pe' s.
Proof.
  intros Hv Hc He. unfold elements_step. rewrite <- Hv.
  destruct (pv s) as [[v r]|]; [|reflexivity].
  specialize (Hc _ eq_refl). cbn [snd] in Hc. cbv zeta.
  pose proof (skip_ws_length r). pose proof (tail_length (skip_ws r)).
  now rewrite He by lia.
Qed.

Lemma members_step_ext pv pv' pm pm' acc s :
  (forall r, (String.length r < String.length s)%nat -> pv r = pv' r) ->
  (forall r res, pv r = Some res -> (String.length (snd res) < String.length r)%nat) ->
  (forall a r, (String.length r < String.length s)%nat -> pm a r = pm' a r) ->
  members_step pv pm acc s = members_step pv' pm' acc s.
Proof.
  intros Hv Hc Hm. unfold members_step.
  pose proof (skip_ws_length s). pose proof (tail_length (skip_ws s)).
  destruct (starts_with quote (skip_ws s)) eqn:Eq; [|reflexivity].
  apply starts_with_tail in Eq.
  destruct (parse_chars (tail (skip_ws s))) as [[k r1]|] eqn:E; [|reflexivity].
  apply (parse_chars_length _ _ _ _ (le_n _)) in E.
  pose proof (skip_ws_length r1). pose proof (tail_length (skip_ws r1)).
  destruct (starts_with ":" (skip_ws r1)); [|reflexivity].
  rewrite <- Hv by lia.
  destruct (pv (tail (skip_ws r1))) as [[v r3]|] eqn:Ev; [|reflexivity].
  apply Hc in Ev. cbn [snd] in Ev. cbv zeta.
  pose proof (skip_ws_length r3). pose proof (tail_length (skip_ws r3)).
  now rewrite Hm by lia.
Qed.

(** From twice the length of the text on, one more unit of fuel changes
    nothing. *)
Lemma parse_fuel_stable f :
  (forall s, (2 * String.length s + 1 <= f)%nat ->
     parse_value (S f) s = parse_value f s)
  /\ (forall s, (2 * String.length s + 2 <= f)%nat ->
         parse_elements (S f) s = parse_elements f s)
  /\ (forall acc s, (2 * String.length s + 2 <= f)%nat ->
         parse_members (S f) acc s = parse_members f acc s).
Proof.
  induction f as [|f (IHv & IHe & IHm)]; [repeat split; intros; lia|].
  destruct (parse_consumes (S f)) as (Cv & _ & _).
  repeat split.
  - intros s Hs. rewrite !parse_value_S. apply value_step_ext.
    + intros r Hr. apply IHe. lia.
    + intros r Hr. apply IHm. lia.
  - intros s Hs. rewrite !parse_elements_S. apply elements_step_ext.
    + apply IHv. lia.
    + apply Cv.
    + intros r Hr. apply IHe. lia.
  - intros acc s Hs. rewrite !parse_members_S. apply members_step_ext.
    + intros r Hr. apply IHv. lia.
    + apply Cv.
    + intros a r Hr. apply IHm. lia.
Qed.

Lemma value_step_mono pe pe' pm pm' s res :
  (forall r x, pe r = Some x -> pe' r = Some x) ->
  (forall r x, pm r = Some x -> pm' r = Some x) ->
  value_step pe pm s = Some res -> value_step pe' pm' s = Some res.
Proof.
  intros He Hm. unfold value_step.
  destruct (skip_ws s) as [|c r]; [discriminate|].
  destruct (Ascii.eqb c "n"); [trivial|].
  destruct (Ascii.eqb c "t"); [trivial|].
  destruct (Ascii.eqb c "f"); [trivial|].
  destruct (Ascii.eqb c quote); [trivial|].
  destruct (Ascii.eqb c "[").
  { destruct (starts_with "]" (skip_ws r)); [trivial|].
    destruct (pe r) as [x|] eqn:E; [|discriminate].
    now rewrite (He _ _ E). }
  destruct (Ascii.eqb c "{"); [|trivial].
  destruct (starts_with "}" (skip_ws r)); [trivial|].
  destruct (pm r) as [x|] eqn:E; [|discriminate].
  now rewrite (Hm _ _ E).
Qed.

Lemma elements_step_mono pv pv' pe pe' s res :
  (forall r x, pv r = Some x -> pv' r = Some x) ->
  (forall r x, pe r = Some x -> pe' r = Some x) ->
  elements_step pv pe s = Some res -> elements_step pv' pe' s = Some res.
Proof.
  intros Hv He. unfold elements_step.
  destruct (pv s) as [[v r]|] eqn:E; [|discriminate].
  rewrite (Hv _ _ E). cbv zeta.
  destruct (starts_with "," (skip_ws r)); [|trivial].
  destruct (pe (tail (skip_ws r))) as [x|] eqn:E2; [|discriminate].
  now rewrite (He _ _ E2).
Qed.

Lemma members_step_mono pv pv' pm pm' acc s res :
  (forall r x, pv r = Some x -> pv' r = Some x) ->
  (forall a r x, pm a r = Some x -> pm' a r = Some x) ->
  members_step pv pm acc s = Some res -> members_step pv' pm' acc s = Some res.
Proof.
  intros Hv Hm. unfold members_step.
  destruct (starts_with quote (skip_ws s)); [|discriminate].
  destruct (parse_chars (tail (skip_ws s))) as [[k r1]|]; [|discriminate].
  destruct (starts_with ":" (skip_ws r1)); [|discriminate].
  destruct (pv (tail (skip_ws r1))) as [[v r3]|] eqn:E; [|discriminate].
  rewrite (Hv _ _ E). cbv zeta.
  destruct (starts_with "," (skip_ws r3)); [apply Hm|trivial].
Qed.

(** More fuel keeps a result. *)
Lemma parse_fuel_mono f :
  (forall s res, parse_value f s = Some res -> parse_value (S f) s = Some res)
  /\ (forall s res, parse_elements f s = Some res ->
         parse_elements (S f) s = Some res)
  /\ (forall acc s res, parse_members f acc s = Some res ->
         parse_members (S f) acc s = Some res).
Proof.
  induction f as [|f (IHv & IHe & IHm)]; [repeat split; discriminate|].
  repeat split.
  - intros s res. rewrite !parse_value_S. apply value_step_mono; auto.
  - intros s res. rewrite !parse_elements_S. apply elements_step_mono; auto.
  - intros acc s res. rewrite !parse_members_S.
    apply members_step_mono; auto.
Qed.

(** The fuel that [parse] gives is enough: a text that reads as a value
    with some fuel reads as that value with twice its length and two. *)
Lemma parse_fuel_enough s f res :
  parse_value f s = Some res ->
  parse_value (2 * String.length s + 2) s = Some res.
Proof.
  intros H.
  destruct (Nat.le_ge_cases f (2 * String.length s + 2)) as [Hle|Hge].
  - induction Hle as [|g Hle IH]; [exact H|].
    now apply (proj1 (parse_fuel_mono g)).
  - rewrite <- H. clear H. induction Hge as [|g Hge IH]; [reflexivity|].
    rewrite IH. symmetry. apply (proj1 (parse_fuel_stable g)). lia.
Qed.

End FuelFacts.

(** [JSON.parse] reads a text as a value exactly when the descent does, with
    whatever fuel, up to the end of the text. *)
Lemma parse_iff s v :
  Json.parse s = Some v
  <-> exists f r, Json.parse_value f s = Some (v, r) /\ Json.skip_ws r = "".
Proof.
  unfold Json.parse. split.
  - destruct (Json.parse_value _ s) as [[v' r]|] eqn:E; [|discriminate].
    destruct (Json.skip_ws r) eqn:Er; [|discriminate].
    intros [= <-]. eauto.
  - intros (f & r & H & Hr). apply FuelFacts.parse_fuel_enough in H.
    now rewrite H, Hr.
Qed.

(** ** Persistence *)

Import NumeralFacts JsonFacts.

(** A record whose numbers JSON can write: finite, with a finite decimal
    expansion. *)
Definition representable_expense (e : Expense) : Prop :=
  representable_num (id e) /\ representable_num (amount e).

Definition representable (st : State) : Prop :=
  representable_num (allowance st)
  /\ representable_num (goal st)
  /\ Forall representable_expense (expenses st).

Lemma reads_back_num_from n :
  representable_num n ->
  reads_back_from 1 (Json.JNum n) (Json.stringify (Json.JNum n)).
Proof.
  intros Hn f Hf. destruct f as [|f]; [lia|]. now apply reads_back_num.
Qed.

Lemma reads_back_string_from s :
  reads_back_from 1 (Json.JStr s) (Json.stringify (Json.JStr s)).
Proof.
  intros f Hf. destruct f as [|f]; [lia|]. apply reads_back_string.
Qed.

Lemma reads_back_from_more f0 f1 v text :
  (f0 <= f1)%nat -> reads_back_from f0 v text -> reads_back_from f1 v text.
Proof. intros H Hv f Hf. apply Hv. lia. Qed.

Lemma expense_reads_back e :
  representable_expense e ->
  reads_back_from 7 (expense_value e) (Json.stringify (expense_value e)).
Proof.
  intros [Hi Ha]. unfold expense_value.
  apply (reads_back_object 1 [_; _; _; _; _]); [discriminate|reflexivity|].
  intros m Hm. cbn [In] in Hm.
  repeat (destruct Hm as [<-|Hm];
          [first [now apply reads_back_num_from|apply reads_back_string_from]|]).
  contradiction.
Qed.

Lemma expenses_read_back es :
  Forall representable_expense es ->
  reads_back_from (List.length es + 8)
    (Json.JArr (map expense_value es))
    (Json.stringify (Json.JArr (map expense_value es))).
Proof.
  intros Hes.
  replace (List.length es + 8)%nat
    with (S (List.length (map expense_value es) + 7))
    by (rewrite length_map; lia).
  apply reads_back_array. intros v Hv. apply in_map_iff in Hv.
  destruct Hv as (e & <- & He). apply expense_reads_back.
  rewrite Forall_forall in Hes. now apply Hes.
Qed.

Lemma state_reads_back st :
  representable st ->
  reads_back_from (List.length (expenses st) + 12)
    (state_value st) (Json.stringify (state_value st)).
Proof.
  intros (Ha & Hg & Hes). unfold state_value.
  replace (List.length (expenses st) + 12)%nat
    with (S (3 + (List.length (expenses st) + 8))) by lia.
  apply (reads_back_object _ [_; _; _]); [discriminate|reflexivity|].
  intros m Hm. cbn [In] in Hm.
  destruct Hm as [<-|[<-|[<-|[]]]]; cbn [snd].
  - eapply reads_back_from_more; [|now apply reads_back_num_from]. lia.
  - eapply reads_back_from_more; [|now apply reads_back_num_from]. lia.
  - now apply expenses_read_back.
Qed.

Lemma elements_length es :
  (List.length es
   <= String.length
        (String.concat "," (map Json.stringify (map expense_value es))))%nat.
Proof.
  induction es as [|e es IH]; [cbn; lia|].
  cbn [map String.concat List.length].
  destruct (map Json.stringify (map expense_value es)) eqn:E.
  - destruct es; [cbn; lia|discriminate].
  - rewrite !length_append. cbn [String.length String.concat] in *.
    unfold expense_value at 1. cbn [Json.stringify].
    rewrite !length_append. cbn [String.length]. lia.
Qed.

Lemma state_text_length st :
  (List.length (expenses st) + 5
   <= String.length (Json.stringify (state_value st)))%nat.
Proof.
  pose proof (elements_length (expenses st)) as H.
  unfold state_value.
  cbn [Json.stringify map String.concat fst snd].
  unfold Json.stringify_member.
  rewrite !length_append. cbn [String.length]. lia.
Qed.

(** What [JSON.stringify] writes of a record, [JSON.parse] reads back. *)
Lemma parse_stringify_state st :
  representable st ->
  Json.parse (Json.stringify (state_value st)) = Some (state_value st).
Proof.
  intros Hst. unfold Json.parse.
  pose proof (state_text_length st) as Hlen.
  pose proof (state_reads_back st Hst
                (2 * String.length (Json.stringify (state_value st)) + 2)%nat
                ltac:(lia) "" I) as Hp.
  rewrite append_nil_r in Hp. rewrite Hp. reflexivity.
Qed.

Lemma as_expense_value e : as_expense (expense_value e) = Some e.
Proof. destruct e. reflexivity. Qed.

Lemma as_expense_list_values es :
  as_expense_list (map expense_value es) = Some es.
Proof.
  induction es as [|e es IH]; [reflexivity|].
  cbn [map as_expense_list]. now rewrite as_expense_value, IH.
Qed.

Lemma or_zero_representable n :
  representable_num n ->
  as_num (or_else (Some (Json.JNum n)) (Json.JNum zero)) = Some n.
Proof.
  destruct n as [| |q]; try contradiction. intros _.
  cbn [or_else truthy JsNum.truthy]. unfold Qc_is_zero.
  destruct (q ?= 0)%Qc eqn:E; cbn [negb as_num]; try reflexivity.
  apply Qceq_alt in E. subst q. reflexivity.
Qed.

Lemma stringify_state_not_empty st :
  String.eqb (Json.stringify (state_value st)) "" = false.
Proof. reflexivity. Qed.

(** Loading what was saved gives the saved record, whatever record is in
    memory before. *)
Lemma load_saved (st st0 : State) :
  representable st ->
  let stored := Some (Json.stringify (state_value st)) in
  loadData {| ledger := st0; hostelFinanceData := stored |}
  = Normal {| ledger := st; hostelFinanceData := stored |}.
Proof.
  intros Hst. cbv zeta. unfold loadData. cbn [hostelFinanceData].
  rewrite stringify_state_not_empty, (parse_stringify_state st Hst).
  destruct Hst as (Ha & Hg & _).
  change (get (state_value st) "allowance")
    with (Some (Json.JNum (allowance st))).
  change (get (state_value st) "goal") with (Some (Json.JNum (goal st))).
  change (get (state_value st) "expenses")
    with (Some (Json.JArr (map expense_value (expenses st)))).
  rewrite (or_zero_representable _ Ha), (or_zero_representable _ Hg).
  cbn [or_else truthy as_expenses]. rewrite as_expense_list_values.
  destruct st. reflexivity.
Qed.

(** C8: for every record of JSON-representable values, [loadData] right
    after [saveData] gives a record equal to the saved one, whatever record
    was in memory before the load. *)
Theorem save_then_load (w : World) (st0 : State) :
  representable (ledger w) ->
  loadData {| ledger := st0;
              hostelFinanceData := hostelFinanceData (saveData w) |}
  = Normal {| ledger := ledger w;
              hostelFinanceData := hostelFinanceData (saveData w) |}.
Proof. intros H. exact (load_saved (ledger w) st0 H). Qed.

Lemma save_then_load_witness :
  let e := {| id := of_Z 1731222000000;
              amount := Fin (Numeral.scale false 4999 (-2));
              category := "food";
              date := "2024-11-03";
              note := String Json.quote "tea\" |} in
  let st := {| allowance := of_Z 1000;
               goal := Fin (Numeral.scale false 125 (-1));
               expenses := [e] |} in
  let w := {| ledger := st; hostelFinanceData := None |} in
  representable st
  /\ loadData {| ledger := state;
                 hostelFinanceData := hostelFinanceData (saveData w) |}
     = Normal {| ledger := st;
                 hostelFinanceData := hostelFinanceData (saveData w) |}.
Proof.
  cbv zeta.
  assert (H : representable
                {| allowance := of_Z 1000;
                   goal := Fin (Numeral.scale false 125 (-1));
                   expenses :=
                     [ {| id := of_Z 1731222000000;
                          amount := Fin (Numeral.scale false 4999 (-2));
                          category := "food";
                          date := "2024-11-03";
                          note := String Json.quote "tea\" |} ] |}).
  { repeat split; try (repeat constructor); vm_compute; discriminate. }
  split; [exact H|].
  exact (save_then_load
           {| ledger := _; hostelFinanceData := None |} state H).
Defined.

(** C1, as stated, fails: the text [{oops] does not parse as JSON, and
    [loadData] on it throws a SyntaxError; it does not return the zero
    defaults. *)
Lemma unparsable_text_throws :
  ~ (forall s : string,
       Json.parse s = None ->
       loadData {| ledger := state; hostelFinanceData := Some s |}
       = Normal {| ledger := state; hostelFinanceData := Some s |}).
Proof.
  intros H. specialize (H "{oops" eq_refl). discriminate H.
Qed.

(** C1, amended: started on the zero defaults, [loadData] leaves them when
    nothing is stored under the key, or the empty text; it gives the last
    saved record when the stored text is what [saveData] wrote of a record of
    representable values; and on any other stored text that does not parse
    as JSON it throws a SyntaxError. *)
Theorem load_outcomes (stored : option string) :
  let w := {| ledger := state; hostelFinanceData := stored |} in
  (stored = None \/ stored = Some "" -> loadData w = Normal w)
  /\ (forall st, representable st ->
        stored = Some (Json.stringify (state_value st)) ->
        loadData w = Normal {| ledger := st; hostelFinanceData := stored |})
  /\ (forall s, stored = Some s -> s <> "" -> Json.parse s = None ->
        loadData w = Throw SyntaxError).
Proof.
  cbv zeta. repeat split.
  - intros [->| ->]; reflexivity.
  - intros st Hst ->. exact (load_saved st state Hst).
  - intros s -> Hne Hp. unfold loadData. cbn [hostelFinanceData].
    apply String.eqb_neq in Hne. now rewrite Hne, Hp.
Qed.

(** ** The scenarios of the specification *)

(** Scenario A: allowance 1000, goal 500, no expense, on the first day of a
    month of 30 days (1 November 2024, noon, five hours ahead of UTC). *)
Example scenario_A :
  let env := {| now := 1730444400000; tza := 18000000 |} in
  let st := {| allowance := of_Z 1000; goal := of_Z 500; expenses := [] |} in
  let shown := updateDashboard env st in
  eqb (shown_currentBalance shown) (of_Z 1000) = true
  /\ shown_daysLeft shown = 29%Z
  /\ status_text (shown_healthIndicator shown) = "Health: Healthy"
  /\ eqb (savingsBar (shown_savings shown)) hundred = true.
Proof. vm_compute. repeat split. Qed.

(** Scenario B: allowance 1000 and one expense of 1200. *)
Example scenario_B :
  let env := {| now := 1730444400000; tza := 18000000 |} in
  let e := {| id := of_Z 1; amount := of_Z 1200; category := "bills";
              date := "2024-11-01"; note := "" |} in
  let st := {| allowance := of_Z 1000; goal := zero; expenses := [e] |} in
  let shown := updateDashboard env st in
  eqb (shown_currentBalance shown) (of_Z (-200)) = true
  /\ status_text (shown_healthIndicator shown) = "Health: Critical".
Proof. vm_compute. repeat split. Qed.

(** Scenario C: no allowance set, with an expense. *)
Example scenario_C :
  let env := {| now := 1730444400000; tza := 18000000 |} in
  let e := {| id := of_Z 1; amount := of_Z 50; category := "food";
              date := "2024-11-01"; note := "" |} in
  let st := {| allowance := zero; goal := zero; expenses := [e] |} in
  status_text (shown_healthIndicator (updateDashboard env st))
  = "Set Allowance".
Proof. vm_compute. reflexivity. Qed.

(** Scenario D, five hours ahead of UTC: of entries on three dates the today
    view shows those of today, all of them. *)
Example scenario_D :
  let env := {| now := 1731222000000; tza := 18000000 |} in
  let entry n d := {| id := of_Z n; amount := of_Z 50; category := "food";
                      date := d; note := "" |} in
  let st := {| allowance := of_Z 1000; goal := zero;
               expenses := [entry 1%Z "2024-11-09"; entry 2%Z "2024-11-10";
                            entry 3%Z "2024-11-11"; entry 4%Z "2024-11-10"] |} in
  map date (renderExpenses env st "today") = ["2024-11-10"; "2024-11-10"].
Proof. vm_compute. reflexivity. Qed.

(** * Further properties of the program *)

(** ** Numbers compared *)

Lemma eqb_true_eq x y : eqb x y = true -> x = y.
Proof.
  unfold eqb. destruct x as [|a|p], y as [|b|q]; cbn [cmp]; try discriminate.
  - destruct a, b; cbn; try discriminate; reflexivity.
  - destruct a; discriminate.
  - destruct b; discriminate.
  - destruct (p ?= q)%Qc eqn:E; try discriminate.
    apply Qceq_alt in E. now subst.
Qed.

Lemma eqb_refl_not_NaN x : x <> NaN -> eqb x x = true.
Proof.
  unfold eqb. destruct x as [|a|p]; cbn [cmp]; [congruence| |].
  - now rewrite Bool.eqb_reflx.
  - intros _. replace (p ?= p)%Qc with Eq; [reflexivity|].
    symmetry. now apply Qceq_alt.
Qed.

Lemma cmp_of_Z a b : cmp (of_Z a) (of_Z b) = Some (a ?= b)%Z.
Proof.
  unfold of_Z. cbn [cmp]. unfold Qccompare. cbn [this Q2Qc].
  rewrite <- Qred_compare. unfold Qcompare. cbn [inject_Z Qnum Qden].
  now rewrite !Z.mul_1_r.
Qed.

Lemma ltb_of_Z a b : ltb (of_Z a) (of_Z b) = (a <? b)%Z.
Proof. unfold ltb, Z.ltb. rewrite cmp_of_Z. now destruct (a ?= b)%Z. Qed.

Lemma ltb_irrefl x : ltb x x = false.
Proof.
  unfold ltb. destruct x as [|a|p]; cbn [cmp]; [reflexivity| |].
  - now rewrite Bool.eqb_reflx.
  - replace (p ?= p)%Qc with Eq; [reflexivity|].
    symmetry. now apply Qceq_alt.
Qed.

Lemma ltb_trans x y z : ltb x y = true -> ltb y z = true -> ltb x z = true.
Proof.
  unfold ltb.
  destruct x as [|a|p], y as [|b|q], z as [|c|r]; cbn [cmp];
    try discriminate;
    repeat match goal with b : bool |- _ => destruct b end;
    cbn; try discriminate; try reflexivity.
  destruct (p ?= q)%Qc eqn:E1; try discriminate.
  destruct (q ?= r)%Qc eqn:E2; try discriminate.
  intros _ _. apply Qclt_alt in E1, E2.
  pose proof (proj1 (Qclt_alt p r) (Qclt_trans _ _ _ E1 E2)) as H.
  now rewrite H.
Qed.

(** ** The expense list under the handlers *)

(** The entry that an accepted submission of the expense form pushes. *)
Definition newExpense (env : Env)
    (amount_input category_input date_input note_input : string) : Expense :=
  {| id := of_Z (now env);
     amount := Numeral.parseFloat amount_input;
     category := category_input;
     date := date_input;
     note := note_input |}.

Lemma submitExpense_accepted env a c d n w :
  gtb (Numeral.parseFloat a) zero = true -> d <> "" ->
  ledger (submitExpense env a c d n w)
  = {| allowance := allowance (ledger w);
       goal := goal (ledger w);
       expenses := expenses (ledger w) ++ [newExpense env a c d n] |}.
Proof.
  intros Ha Hd. unfold submitExpense. rewrite Ha.
  apply String.eqb_neq in Hd. rewrite Hd. reflexivity.
Qed.

Lemma submitExpense_cases env a c d n w :
  submitExpense env a c d n w = w
  \/ ledger (submitExpense env a c d n w)
     = {| allowance := allowance (ledger w);
          goal := goal (ledger w);
          expenses := expenses (ledger w) ++ [newExpense env a c d n] |}
     /\ gtb (Numeral.parseFloat a) zero = true.
Proof.
  unfold submitExpense.
  destruct (gtb (Numeral.parseFloat a) zero); [|now left].
  destruct (String.eqb d ""); [now left|]. right. split; reflexivity.
Qed.

(** X1: an accepted expense raises the total spent by its amount, and the
    balance shown is the allowance less the new total. *)
Theorem accepted_expense_raises_total (env : Env) (w : World)
    (amount_input category_input date_input note_input : string) :
  gtb (Numeral.parseFloat amount_input) zero = true ->
  date_input <> "" ->
  let st' := ledger (submitExpense env amount_input category_input date_input
                       note_input w) in
  totalSpent st'
  = add (totalSpent (ledger w)) (Numeral.parseFloat amount_input)
  /\ shown_totalSpent (updateDashboard env st')
     = add (totalSpent (ledger w)) (Numeral.parseFloat amount_input)
  /\ shown_currentBalance (updateDashboard env st')
     = sub (allowance (ledger w))
         (add (totalSpent (ledger w)) (Numeral.parseFloat amount_input)).
Proof.
  intros Ha Hd. cbv zeta. rewrite (submitExpense_accepted _ _ _ _ _ _ Ha Hd).
  assert (H : totalSpent
                {| allowance := allowance (ledger w);
                   goal := goal (ledger w);
                   expenses := expenses (ledger w)
                               ++ [newExpense env amount_input category_input
                                     date_input note_input] |}
              = add (totalSpent (ledger w)) (Numeral.parseFloat amount_input)).
  { unfold totalSpent. cbn [expenses]. now rewrite fold_left_app. }
  unfold updateDashboard, balance.
  cbn [shown_totalSpent shown_currentBalance]. rewrite H.
  repeat split.
Qed.

Lemma accepted_expense_raises_total_witness :
  let env := {| now := 1731240000000; tza := 18000000 |} in
  let e := {| id := of_Z 1; amount := of_Z 50; category := "food";
              date := "2024-11-09"; note := "" |} in
  let w := {| ledger := {| allowance := of_Z 1000; goal := zero;
                           expenses := [e] |};
              hostelFinanceData := None |} in
  let st' := ledger (submitExpense env "12.5" "bills" "2024-11-10" "" w) in
  gtb (Numeral.parseFloat "12.5") zero = true
  /\ "2024-11-10" <> ""
  /\ totalSpent st' = add (totalSpent (ledger w)) (Numeral.parseFloat "12.5")
  /\ eqb (totalSpent st') (Fin (Numeral.scale false 625 (-1))) = true.
Proof.
  cbv zeta.
  split; [reflexivity|]. split; [discriminate|].
  split; [|vm_compute; reflexivity].
  exact (proj1 (accepted_expense_raises_total
                  {| now := 1731240000000; tza := 18000000 |}
                  {| ledger := {| allowance := of_Z 1000; goal := zero;
                                  expenses := [ {| id := of_Z 1;
                                                   amount := of_Z 50;
                                                   category := "food";
                                                   date := "2024-11-09";
                                                   note := "" |} ] |};
                     hostelFinanceData := None |}
                  "12.5" "bills" "2024-11-10" "" eq_refl
                  ltac:(discriminate))).
Defined.

Lemma filter_all_kept {A} (f : A -> bool) l :
  Forall (fun x => f x = true) l -> filter f l = l.
Proof.
  induction 1 as [|x l Hx _ IH]; [reflexivity|].
  cbn [filter]. now rewrite Hx, IH.
Qed.

(** X2: deleting the entry just added gives back the record as it was,
    when no older entry has the clock's reading as its id. *)
Theorem delete_undoes_add (env : Env) (w : World)
    (amount_input category_input date_input note_input : string) :
  Forall (fun e => eqb (id e) (of_Z (now env)) = false) (expenses (ledger w)) ->
  gtb (Numeral.parseFloat amount_input) zero = true ->
  date_input <> "" ->
  ledger (deleteExpense true (of_Z (now env))
            (submitExpense env amount_input category_input date_input
               note_input w))
  = ledger w.
Proof.
  intros Hids Ha Hd. unfold deleteExpense. cbn [saveData ledger].
  rewrite (submitExpense_accepted _ _ _ _ _ _ Ha Hd).
  cbn [allowance goal expenses]. rewrite filter_app. cbn [filter newExpense id].
  rewrite eqb_refl_not_NaN by discriminate. cbn [negb].
  rewrite app_nil_r, filter_all_kept.
  - now destruct (ledger w).
  - eapply Forall_impl; [|exact Hids]. cbn. now intros e ->.
Qed.

Lemma delete_undoes_add_witness :
  let env := {| now := 1731240000000; tza := 18000000 |} in
  let e := {| id := of_Z 1731230000000; amount := of_Z 50; category := "food";
              date := "2024-11-09"; note := "" |} in
  let w := {| ledger := {| allowance := of_Z 1000; goal := zero;
                           expenses := [e] |};
              hostelFinanceData := None |} in
  Forall (fun e => eqb (id e) (of_Z (now env)) = false) (expenses (ledger w))
  /\ gtb (Numeral.parseFloat "12.5") zero = true
  /\ "2024-11-10" <> ""
  /\ ledger (deleteExpense true (of_Z (now env))
               (submitExpense env "12.5" "bills" "2024-11-10" "" w))
     = ledger w.
Proof.
  cbv zeta.
  assert (H : Forall (fun e => eqb (id e) (of_Z 1731240000000) = false)
                [ {| id := of_Z 1731230000000; amount := of_Z 50;
                     category := "food"; date := "2024-11-09";
                     note := "" |} ]).
  { repeat constructor. }
  split; [exact H|]. split; [reflexivity|]. split; [discriminate|].
  exact (delete_undoes_add
           {| now := 1731240000000; tza := 18000000 |}
           {| ledger := {| allowance := of_Z 1000; goal := zero;
                           expenses := _ |};
              hostelFinanceData := None |}
           "12.5" "bills" "2024-11-10" "" H eq_refl ltac:(discriminate)).
Defined.

(** X3: two expenses accepted at the same reading of the clock get the same
    id, and one confirmed deletion by that id removes them both. *)
Theorem same_clock_entries_deleted_together (env : Env) (w : World)
    (a1 c1 d1 n1 a2 c2 d2 n2 : string) :
  gtb (Numeral.parseFloat a1) zero = true -> d1 <> "" ->
  gtb (Numeral.parseFloat a2) zero = true -> d2 <> "" ->
  let w2 := submitExpense env a2 c2 d2 n2 (submitExpense env a1 c1 d1 n1 w) in
  expenses (ledger w2)
  = (expenses (ledger w)
     ++ [newExpense env a1 c1 d1 n1; newExpense env a2 c2 d2 n2])%list
  /\ id (newExpense env a1 c1 d1 n1) = id (newExpense env a2 c2 d2 n2)
  /\ expenses (ledger (deleteExpense true (id (newExpense env a2 c2 d2 n2)) w2))
     = filter (fun e => negb (eqb (id e) (of_Z (now env))))
         (expenses (ledger w)).
Proof.
  intros Ha1 Hd1 Ha2 Hd2. cbv zeta.
  unfold deleteExpense. cbn [saveData ledger expenses].
  rewrite (submitExpense_accepted _ _ _ _ _ _ Ha2 Hd2).
  rewrite (submitExpense_accepted _ _ _ _ _ _ Ha1 Hd1).
  cbn [allowance goal expenses]. rewrite <- app_assoc. cbn [app].
  repeat split. rewrite filter_app. cbn [filter newExpense id].
  rewrite eqb_refl_not_NaN by discriminate. cbn [negb].
  now rewrite app_nil_r.
Qed.

Lemma same_clock_entries_deleted_together_witness :
  let env := {| now := 1731240000000; tza := 18000000 |} in
  let w := {| ledger := state; hostelFinanceData := None |} in
  let w2 := submitExpense env "30" "food" "2024-11-10" "tea"
              (submitExpense env "12.5" "bills" "2024-11-10" "" w) in
  gtb (Numeral.parseFloat "12.5") zero = true /\ "2024-11-10" <> ""
  /\ gtb (Numeral.parseFloat "30") zero = true
  /\ expenses (ledger (deleteExpense true
                         (id (newExpense env "30" "food" "2024-11-10" "tea"))
                         w2))
     = [].
Proof.
  cbv zeta. split; [reflexivity|]. split; [discriminate|].
  split; [reflexivity|].
  exact (proj2 (proj2 (same_clock_entries_deleted_together
                  {| now := 1731240000000; tza := 18000000 |}
                  {| ledger := state; hostelFinanceData := None |}
                  "12.5" "bills" "2024-11-10" "" "30" "food" "2024-11-10" "tea"
                  eq_refl ltac:(discriminate) eq_refl ltac:(discriminate)))).
Defined.

(** The ids of the list are readings of the clock before [t]. *)
Definition ids_before (t : Z) (st : State) : Prop :=
  Forall (fun e => ltb (id e) (of_Z t) = true) (expenses st).

Lemma ids_before_later t t' st :
  (t <= t')%Z -> ids_before t st -> ids_before t' st.
Proof.
  intros Ht H. eapply Forall_impl; [|exact H]. cbn. intros e He.
  destruct (Z.eq_dec t t') as [<-|Hne]; [exact He|].
  apply (ltb_trans _ _ _ He). rewrite ltb_of_Z. apply Z.ltb_lt. lia.
Qed.

Lemma NoDup_map_filter {A B} (f : A -> B) (p : A -> bool) l :
  NoDup (map f l) -> NoDup (map f (filter p l)).
Proof.
  induction l as [|x l IH]; [trivial|]. cbn [map filter].
  intros H. apply NoDup_cons_iff in H. destruct H as [Hx Hl].
  destruct (p x); [|now apply IH]. cbn [map]. constructor; [|now apply IH].
  intros Hin. apply Hx. apply in_map_iff in Hin.
  destruct Hin as (y & Hy & Hin). apply filter_In in Hin.
  apply in_map_iff. exists y. tauto.
Qed.

(** X4: while the clock advances from one accepted expense to the next, no
    two entries of the list have the same id, whatever the handlers do. *)
Theorem ids_stay_unique (env : Env) (w : World)
    (input category_input date_input note_input : string)
    (confirmed : bool) (i : num) :
  ids_before (now env) (ledger w) ->
  NoDup (map id (expenses (ledger w))) ->
  (let st' := ledger (submitExpense env input category_input date_input
                        note_input w) in
   NoDup (map id (expenses st')) /\ ids_before (now env + 1) st')
  /\ (let st' := ledger (deleteExpense confirmed i w) in
      NoDup (map id (expenses st')) /\ ids_before (now env) st')
  /\ (let st' := ledger (submitAllowance input w) in
      NoDup (map id (expenses st')) /\ ids_before (now env) st')
  /\ (let st' := ledger (submitGoal input w) in
      NoDup (map id (expenses st')) /\ ids_before (now env) st').
Proof.
  intros Hb Hn. cbv zeta. repeat apply conj.
  - destruct (submitExpense_cases env input category_input date_input
                note_input w) as [-> |[-> _]]; [exact Hn|].
    cbn [expenses]. rewrite map_app. cbn [map newExpense id].
    apply NoDup_app; [exact Hn|repeat constructor; intros []|].
    intros x Hx [<-|[]]. apply in_map_iff in Hx.
    destruct Hx as (e & He & Hin). unfold ids_before in Hb.
    rewrite Forall_forall in Hb. specialize (Hb e Hin).
    rewrite He, ltb_irrefl in Hb. discriminate.
  - destruct (submitExpense_cases env input category_input date_input
                note_input w) as [-> |[-> _]].
    + apply (ids_before_later (now env)); [lia|exact Hb].
    + unfold ids_before. cbn [expenses]. apply Forall_app. split.
      * apply (ids_before_later (now env)); [lia|exact Hb].
      * repeat constructor. cbn [newExpense id]. rewrite ltb_of_Z.
        apply Z.ltb_lt. lia.
  - destruct confirmed; [|exact Hn]. cbn [deleteExpense saveData ledger expenses].
    now apply NoDup_map_filter.
  - destruct confirmed; [|exact Hb]. unfold ids_before in *.
    cbn [deleteExpense saveData ledger expenses].
    apply Forall_forall. intros e He. apply filter_In in He.
    rewrite Forall_forall in Hb. now apply Hb.
  - unfold submitAllowance. now destruct (gtb _ zero).
  - unfold submitAllowance. now destruct (gtb _ zero).
  - unfold submitGoal. now destruct (gtb _ zero).
  - unfold submitGoal. now destruct (gtb _ zero).
Qed.

Lemma ids_stay_unique_witness :
  let env := {| now := 1731240000000; tza := 18000000 |} in
  let e := {| id := of_Z 1731230000000; amount := of_Z 50; category := "food";
              date := "2024-11-09"; note := "" |} in
  let w := {| ledger := {| allowance := of_Z 1000; goal := zero;
                           expenses := [e] |};
              hostelFinanceData := None |} in
  ids_before (now env) (ledger w)
  /\ NoDup (map id (expenses (ledger w)))
  /\ NoDup (map id (expenses (ledger (submitExpense env "12.5" "bills"
                                        "2024-11-10" "" w)))).
Proof.
  cbv zeta.
  assert (Hb : ids_before 1731240000000
                 {| allowance := of_Z 1000; goal := zero;
                    expenses := [ {| id := of_Z 1731230000000;
                                     amount := of_Z 50; category := "food";
                                     date := "2024-11-09"; note := "" |} ] |}).
  { repeat constructor. }
  assert (Hn : NoDup [of_Z 1731230000000]).
  { repeat constructor. intros []. }
  split; [exact Hb|]. split; [exact Hn|].
  exact (proj1 (proj1 (ids_stay_unique
                  {| now := 1731240000000; tza := 18000000 |}
                  {| ledger := _; hostelFinanceData := None |}
                  "12.5" "bills" "2024-11-10" "" true zero Hb Hn))).
Defined.

Lemma eqb_false_neq x y : x <> y -> eqb x y = false.
Proof.
  intros H. destruct (eqb x y) eqn:E; [|reflexivity].
  now apply eqb_true_eq in E.
Qed.

(** X5: when the ids of the list are distinct, a confirmed deletion by the
    id of an entry takes out that entry and no other, the rest in their
    order. *)
Theorem delete_removes_exactly_one (w : World) (l1 l2 : list Expense)
    (e : Expense) :
  expenses (ledger w) = (l1 ++ e :: l2)%list ->
  NoDup (map id (expenses (ledger w))) ->
  id e <> NaN ->
  expenses (ledger (deleteExpense true (id e) w)) = (l1 ++ l2)%list.
Proof.
  intros Hl Hn He. cbn [deleteExpense saveData ledger expenses].
  rewrite Hl in *. rewrite map_app in Hn. cbn [map] in Hn.
  apply NoDup_remove in Hn. destruct Hn as [_ Hn].
  rewrite filter_app. cbn [filter].
  rewrite (eqb_refl_not_NaN _ He). cbn [negb].
  assert (Hkeep : forall l, (forall x, In x l -> In (id x) (map id l1 ++ map id l2)) ->
                  filter (fun exp => negb (eqb (id exp) (id e))) l = l).
  { intros l Hin. apply filter_all_kept. apply Forall_forall. intros x Hx.
    rewrite eqb_false_neq; [reflexivity|]. intros Heq. apply Hn.
    rewrite <- Heq. now apply Hin. }
  rewrite !Hkeep; [reflexivity| |]; intros x Hx; apply in_or_app.
  - right. now apply in_map.
  - left. now apply in_map.
Qed.

Lemma delete_removes_exactly_one_witness :
  let entry i d := {| id := of_Z i; amount := of_Z 50; category := "food";
                      date := d; note := "" |} in
  let w := {| ledger := {| allowance := of_Z 1000; goal := zero;
                           expenses := [entry 1%Z "2024-11-09";
                                        entry 2%Z "2024-11-10";
                                        entry 3%Z "2024-11-11"] |};
              hostelFinanceData := None |} in
  NoDup (map id (expenses (ledger w)))
  /\ id (entry 2%Z "2024-11-10") <> NaN
  /\ expenses (ledger (deleteExpense true (of_Z 2) w))
     = [entry 1%Z "2024-11-09"; entry 3%Z "2024-11-11"].
Proof.
  intros entry w.
  assert (Hn : NoDup (map id (expenses (ledger w)))).
  { repeat constructor; cbn [In]; intros H;
      repeat (destruct H as [H|H]; [discriminate H|]); exact H. }
  split; [exact Hn|]. split; [discriminate|].
  exact (delete_removes_exactly_one w [entry 1%Z "2024-11-09"]
           [entry 3%Z "2024-11-11"] (entry 2%Z "2024-11-10")
           eq_refl Hn ltac:(discriminate)).
Defined.

(** ** The numbers that the forms give *)

Module DecimalFacts.
Import Numeral.
Local Open Scope Z_scope.

Lemma pow10_step n : 0 <= n -> 10 ^ (n + 1) = 10 * 10 ^ n.
Proof. intros H. rewrite Z.pow_add_r by lia. lia. Qed.

Lemma pow10_divide a b : 0 <= a <= b -> (10 ^ a | 10 ^ b).
Proof.
  intros H. exists (10 ^ (b - a)). rewrite <- Z.pow_add_r by lia.
  f_equal. lia.
Qed.

Lemma coprime_divides_one n : 0 <= n ->
  forall d, Z.gcd d 10 = 1 -> (d | 10 ^ n) -> (d | 1).
Proof.
  intros Hn. pattern n. apply natlike_ind; [| |exact Hn].
  - intros d _ H. exact H.
  - intros k Hk IH d Hg H. unfold Z.succ in H. rewrite pow10_step in H by lia.
    apply IH; [exact Hg|]. now apply (Z.gauss d 10).
Qed.

Lemma two_or_five d n :
  1 < d -> 0 <= n -> (d | 10 ^ n) -> (2 | d) \/ (5 | d).
Proof.
  intros Hd Hn H.
  pose proof (Z.gcd_divide_l d 10) as Hl.
  pose proof (Z.gcd_divide_r d 10) as Hr.
  pose proof (Z.gcd_nonneg d 10) as H0.
  destruct (Z.eq_dec (Z.gcd d 10) 1) as [E|E].
  { apply (coprime_divides_one n Hn d E) in H.
    apply Z.divide_1_r_nonneg in H; lia. }
  remember (Z.gcd d 10) as g.
  assert (Hg : 2 <= g <= 10).
  { split.
    - destruct (Z.eq_dec g 0) as [Z0|]; [|lia].
      destruct Hr as [c Hc]. lia.
    - apply Z.divide_pos_le in Hr; lia. }
  assert (Hc : g = 2 \/ g = 5 \/ g = 10).
  { destruct Hr as [c Hc].
    assert (G : g = 2 \/ g = 3 \/ g = 4 \/ g = 5 \/ g = 6 \/ g = 7 \/ g = 8
                \/ g = 9 \/ g = 10) by lia.
    repeat (destruct G as [G|G]; [subst g; lia|]). lia. }
  destruct Hc as [->|[->| ->]].
  - now left.
  - now right.
  - left. apply (Z.divide_trans _ 10); [now exists 5|exact Hl].
Qed.

(** A divisor of a power of ten divides the power of ten of its own
    binary logarithm. *)
Lemma pow10_divisor (N : nat) : forall d n,
  0 < d <= Z.of_nat N -> 0 <= n -> (d | 10 ^ n) -> (d | 10 ^ Z.log2 d).
Proof.
  induction N as [|N IH]; intros d n Hd Hn H; [lia|].
  destruct (Z.eq_dec d 1) as [->|H1]; [now exists 1|].
  destruct (two_or_five d n ltac:(lia) Hn H) as [[c Hc]|[c Hc]].
  - assert (Hc' : (c | 10 ^ Z.log2 c)).
    { apply (IH c n); [lia|exact Hn|].
      apply (Z.divide_trans _ d); [exists 2; lia|exact H]. }
    replace d with (2 * c) by lia. rewrite Z.log2_double by lia.
    unfold Z.succ. rewrite pow10_step by apply Z.log2_nonneg.
    replace (10 * 10 ^ Z.log2 c) with (2 * (5 * 10 ^ Z.log2 c)) by lia.
    apply Z.mul_divide_mono_l. now apply Z.divide_mul_r.
  - assert (Hc' : (c | 10 ^ Z.log2 c)).
    { apply (IH c n); [lia|exact Hn|].
      apply (Z.divide_trans _ d); [exists 5; lia|exact H]. }
    apply (Z.divide_trans _ (10 ^ (Z.log2 c + 1))).
    + rewrite pow10_step by apply Z.log2_nonneg.
      replace d with (5 * c) by lia.
      replace (10 * 10 ^ Z.log2 c) with (5 * (2 * 10 ^ Z.log2 c)) by lia.
      apply Z.mul_divide_mono_l. now apply Z.divide_mul_r.
    + apply pow10_divide.
      pose proof (Z.log2_double c ltac:(lia)) as Hdbl.
      pose proof (Z.log2_le_mono (2 * c) d ltac:(lia)) as Hle.
      pose proof (Z.log2_nonneg c). lia.
Qed.

Lemma decimal_places_finds fuel : forall d k0 k,
  0 < d -> k0 <= k <= k0 + Z.of_nat fuel -> (10 ^ k) mod d = 0 ->
  decimal_places fuel d k0 <> None.
Proof.
  induction fuel as [|fuel IH]; intros d k0 k Hd Hk H; cbn [decimal_places].
  - replace k0 with k by lia. rewrite H. discriminate.
  - destruct ((10 ^ k0) mod d =? 0) eqn:E; [discriminate|].
    apply (IH d (k0 + 1) k Hd); [|exact H].
    destruct (Z.eq_dec k k0) as [->|]; [|lia].
    rewrite H in E. discriminate.
Qed.

(** The denominator of a fraction in lowest terms divides every
    denominator of the fraction. *)
Lemma Qred_den_divide q : (Zpos (Qden (Qred q)) | Zpos (Qden q)).
Proof.
  pose proof (Qred_correct q) as H. unfold Qeq in H.
  pose proof (gcd_Qred q) as Hg.
  apply (Z.gauss _ (Qnum (Qred q))).
  - exists (Qnum q). rewrite H. lia.
  - now rewrite Z.gcd_comm.
Qed.

Lemma places_of_decimal q n :
  0 <= n -> (Zpos (Qden q) | 10 ^ n) -> places (Q2Qc q) <> None.
Proof.
  intros Hn H. unfold places. cbn [this Q2Qc].
  set (d := Zpos (Qden (Qred q))).
  assert (Hd : (d | 10 ^ Z.log2 d)).
  { apply (pow10_divisor (Z.to_nat d) d n); [subst d; lia|exact Hn|].
    apply (Z.divide_trans _ (Zpos (Qden q))); [apply Qred_den_divide|exact H]. }
  apply (decimal_places_finds _ d 0 (Z.log2 d)); [subst d; lia| |].
  - pose proof (Z.log2_nonneg d). lia.
  - apply Z.mod_divide in Hd; [exact Hd|subst d; lia].
Qed.



End DecimalFacts.

(** ** The page and its events *)

(** *** The date field of the expense form *)

Definition two_digits (n : Z) : string :=
  String (Numeral.digit_char (n / 10))
    (String (Numeral.digit_char (n mod 10)) "").

Definition year_digits (y : Z) : string :=
  if (y <? 10000)%Z then two_digits (y / 100) ++ two_digits (y mod 100)
  else Numeral.string_of_digits (Numeral.digits_of y).

(** The value that a date field takes when its [valueAsDate] is set to the
    date [t]: the calendar day of [t] in UTC, written YYYY-MM-DD.  The field
    ['expense-date'] is taken to be a date field, as the form of its values
    is throughout.  A year before 1 has no such text; what the field then
    holds is left out ([None]). *)
Definition valueAsDate (t : Z) : option string :=
  let d := JsDate.Day t in
  let y := JsDate.YearFromDay d in
  if (y <? 1)%Z then None
  else Some (year_digits y ++ "-"
             ++ two_digits (JsDate.MonthFromDay d + 1) ++ "-"
             ++ two_digits (JsDate.DateFromDay d)).

(** [document.getElementById('expense-date').valueAsDate = new Date()], as
    the listeners are set up and after each accepted expense. *)
Definition defaultDate (env : Env) : option string := valueAsDate (now env).

(** *** The start of the page *)



(** *** The events *)

(** The events that change the record, each with what its listener reads.
    The listener of the expense form also sets the date field anew, to
    [defaultDate] at its reading of the clock. *)
Inductive Event : Type :=
| AllowanceSubmitted (input : string)
| GoalSubmitted (input : string)
| ExpenseSubmitted (amount_input category_input date_input note_input : string)
| DeleteClicked (confirmed : bool) (id_ : num).

Definition handle (env : Env) (ev : Event) (w : World) : World :=
  match ev with
  | AllowanceSubmitted input => submitAllowance input w
  | GoalSubmitted input => submitGoal input w
  | ExpenseSubmitted a c d n => submitExpense env a c d n w
  | DeleteClicked confirmed id_ => deleteExpense confirmed id_ w
  end.

(** A session: the events in the order they come, each at its reading of
    the clock. *)
Definition session (evs : list (Env * Event)) (w : World) : World :=
  fold_left (fun w ev => handle (fst ev) (snd ev) w) evs w.


(** ** The record across a restart of the page *)


Lemma representable_of_Z z : representable_num (of_Z z).
Proof.
  apply (DecimalFacts.places_of_decimal _ 0); [lia|]. now exists 1%Z.
Qed.








(** ** Amounts that are not finite, and stored texts that hold no record *)

(** What [JSON.stringify] makes of a number: [null] when it is not finite. *)
Definition written (n : num) : Json.value :=
  match n with
  | Fin _ => Json.JNum n
  | _ => Json.JNull
  end.

(** What [x || 0] makes of a number read back. *)
Definition reloaded (n : num) : num :=
  match n with
  | Fin _ => n
  | _ => zero
  end.

(** A number that is finite only with a finite decimal expansion. *)
Definition writable (n : num) : Prop :=
  is_finite n = true -> representable_num n.

Lemma stringify_written n :
  Json.stringify (written n) = Json.stringify (Json.JNum n).
Proof. now destruct n. Qed.

Lemma written_reads_back n :
  writable n -> reads_back_from 1 (written n) (Json.stringify (written n)).
Proof.
  intros Hn. destruct n as [| |q].
  - intros [|f] Hf rest _; [lia|reflexivity].
  - intros [|f] Hf rest _; [lia|reflexivity].
  - apply reads_back_num_from. now apply Hn.
Qed.

Lemma or_zero_written n :
  writable n ->
  as_num (or_else (Some (written n)) (Json.JNum zero)) = Some (reloaded n).
Proof.
  intros Hn. destruct n as [| |q]; try reflexivity.
  apply or_zero_representable. now apply Hn.
Qed.

(** The record as [JSON.parse] reads it back from the text of [saveData]. *)
Definition stored_value (st : State) : Json.value :=
  Json.JObj [("allowance", written (allowance st));
             ("goal", written (goal st));
             ("expenses", Json.JArr (map expense_value (expenses st)))].

Lemma stringify_stored_value st :
  Json.stringify (stored_value st) = Json.stringify (state_value st).
Proof.
  unfold stored_value, state_value. cbn [Json.stringify map fst snd].
  now rewrite !stringify_written.
Qed.

Lemma parse_saved_text st :
  writable (allowance st) -> writable (goal st) ->
  Forall representable_expense (expenses st) ->
  Json.parse (Json.stringify (state_value st)) = Some (stored_value st).
Proof.
  intros Ha Hg Hes. unfold Json.parse.
  pose proof (state_text_length st) as Hlen.
  rewrite <- stringify_stored_value in *.
  assert (Hrb : reads_back_from (List.length (expenses st) + 12)
                  (stored_value st) (Json.stringify (stored_value st))).
  { unfold stored_value.
    replace (List.length (expenses st) + 12)%nat
      with (S (3 + (List.length (expenses st) + 8))) by lia.
    apply (reads_back_object _ [_; _; _]); [discriminate|reflexivity|].
    intros m Hm. cbn [In] in Hm.
    destruct Hm as [<-|[<-|[<-|[]]]]; cbn [snd].
    - eapply reads_back_from_more; [|now apply written_reads_back]. lia.
    - eapply reads_back_from_more; [|now apply written_reads_back]. lia.
    - now apply expenses_read_back. }
  pose proof (Hrb (2 * String.length (Json.stringify (stored_value st)) + 2)%nat
                ltac:(lia) "" I) as Hp.
  rewrite append_nil_r in Hp. rewrite Hp. reflexivity.
Qed.

(** Loading what was saved of any record whose finite numbers are decimal:
    the amounts that are not finite come back as zero. *)
Lemma load_saved_amounts (st st0 : State) :
  writable (allowance st) -> writable (goal st) ->
  Forall representable_expense (expenses st) ->
  let stored := Some (Json.stringify (state_value st)) in
  loadData {| ledger := st0; hostelFinanceData := stored |}
  = Normal {| ledger := {| allowance := reloaded (allowance st);
                           goal := reloaded (goal st);
                           expenses := expenses st |};
              hostelFinanceData := stored |}.
Proof.
  intros Ha Hg Hes. cbv zeta. unfold loadData. cbn [hostelFinanceData].
  rewrite stringify_state_not_empty, (parse_saved_text st Ha Hg Hes).
  unfold stored_value at 1.
  change (get (stored_value st) "allowance")
    with (Some (written (allowance st))).
  change (get (stored_value st) "goal") with (Some (written (goal st))).
  change (get (stored_value st) "expenses")
    with (Some (Json.JArr (map expense_value (expenses st)))).
  rewrite (or_zero_written _ Ha), (or_zero_written _ Hg).
  cbn [or_else truthy as_expenses]. now rewrite as_expense_list_values.
Qed.

Lemma representable_writable n : representable_num n -> writable n.
Proof. intros H _. exact H. Qed.

Lemma infinite_writable n : is_finite n = false -> writable n.
Proof. intros H H'. congruence. Qed.

(** X7: the text [Infinity] passes the test [amount > 0] of the allowance
    and goal forms; the amount is saved as [null], and after a restart of
    the page it is zero. *)
Theorem infinite_amount_lost_on_restart (input : string) (w : World) :
  Numeral.parseFloat input = Inf false ->
  representable (ledger w) ->
  let restart w' :=
    loadData {| ledger := state;
                hostelFinanceData := hostelFinanceData w' |} in
  allowance (ledger (submitAllowance input w)) = Inf false
  /\ restart (submitAllowance input w)
     = Normal {| ledger := {| allowance := zero;
                              goal := goal (ledger w);
                              expenses := expenses (ledger w) |};
                 hostelFinanceData :=
                   hostelFinanceData (submitAllowance input w) |}
  /\ goal (ledger (submitGoal input w)) = Inf false
  /\ restart (submitGoal input w)
     = Normal {| ledger := {| allowance := allowance (ledger w);
                              goal := zero;
                              expenses := expenses (ledger w) |};
                 hostelFinanceData :=
                   hostelFinanceData (submitGoal input w) |}.
Proof.
  intros Hinf (Ha & Hg & Hes). cbv zeta.
  unfold submitAllowance, submitGoal. rewrite Hinf.
  cbn [gtb cmp zero of_Z saveData ledger hostelFinanceData allowance goal].
  repeat split.
  - rewrite load_saved_amounts; cbn [allowance goal expenses];
      [|now apply infinite_writable|now apply representable_writable|exact Hes].
    destruct (goal (ledger w)); try contradiction. reflexivity.
  - rewrite load_saved_amounts; cbn [allowance goal expenses];
      [|now apply representable_writable|now apply infinite_writable|exact Hes].
    destruct (allowance (ledger w)); try contradiction. reflexivity.
Qed.

Lemma infinite_amount_lost_on_restart_witness :
  let w := {| ledger := {| allowance := of_Z 1000; goal := of_Z 500;
                           expenses := [] |};
              hostelFinanceData := None |} in
  Numeral.parseFloat "Infinity" = Inf false
  /\ representable (ledger w)
  /\ allowance (ledger (submitAllowance "Infinity" w)) = Inf false
  /\ hostelFinanceData (submitAllowance "Infinity" w)
     = Some (String "{" (String Json.quote "allowance"
               ++ String Json.quote ":null,"
               ++ String Json.quote "goal"
               ++ String Json.quote ":500,"
               ++ String Json.quote "expenses"
               ++ String Json.quote ":[]}")).
Proof.
  intros w.
  assert (H : representable (ledger w)).
  { repeat split; try apply representable_of_Z. constructor. }
  split; [reflexivity|]. split; [exact H|]. split; [|reflexivity].
  exact (proj1 (infinite_amount_lost_on_restart "Infinity" w eq_refl H)).
Defined.

(** Missing, or falsy: what [||] replaces by its right operand. *)
Definition absent (x : option Json.value) : Prop :=
  match x with
  | None => True
  | Some v => truthy v = false
  end.

Lemma or_else_absent x d : absent x -> or_else x d = d.
Proof. destruct x as [v|]; cbn; [now intros ->|reflexivity]. Qed.

(** X8: a stored text that is valid JSON and is not the text of a record:
    on [null], [loadData] throws a TypeError; on a number, a string, a
    boolean or an array, and on an object whose three members are missing or
    falsy, it sets the record to the zero defaults, whatever it was. *)
Theorem stored_value_without_record (s : string) (v : Json.value)
    (st0 : State) :
  Json.parse s = Some v ->
  let w := {| ledger := st0; hostelFinanceData := Some s |} in
  let reset := Normal {| ledger := state; hostelFinanceData := Some s |} in
  match v with
  | Json.JNull => loadData w = Throw TypeError
  | Json.JObj l =>
      absent (lookup "allowance" l) -> absent (lookup "goal" l) ->
      absent (lookup "expenses" l) -> loadData w = reset
  | _ => loadData w = reset
  end.
Proof.
  intros Hp. cbv zeta. unfold loadData. cbn [hostelFinanceData].
  destruct (String.eqb_spec s "") as [->|_]; [discriminate Hp|].
  rewrite Hp. destruct v as [|b|n|t|l|l]; try reflexivity.
  intros Ha Hg He. cbn [get].
  now rewrite (or_else_absent _ _ Ha), (or_else_absent _ _ Hg),
    (or_else_absent _ _ He).
Qed.

Lemma stored_value_without_record_witness :
  let st0 := {| allowance := of_Z 1000; goal := of_Z 500; expenses := [] |} in
  Json.parse " [1, 2] " = Some (Json.JArr [Json.JNum (of_Z 1); Json.JNum (of_Z 2)])
  /\ loadData {| ledger := st0; hostelFinanceData := Some " [1, 2] " |}
     = Normal {| ledger := state; hostelFinanceData := Some " [1, 2] " |}.
Proof.
  intros st0.
  assert (H : Json.parse " [1, 2] "
              = Some (Json.JArr [Json.JNum (of_Z 1); Json.JNum (of_Z 2)])).
  { vm_compute. reflexivity. }
  split; [exact H|].
  exact (stored_value_without_record " [1, 2] " _ st0 H).
Defined.

(** ** Finite numbers as rationals *)

Module FiniteFacts.
Local Open Scope Q_scope.

Lemma this_plus p q : this (p + q)%Qc == this p + this q.
Proof. apply Qred_correct. Qed.

Lemma this_opp p : this (- p)%Qc == - this p.
Proof. apply Qred_correct. Qed.




Lemma this_inject z : this (Q2Qc (inject_Z z)) == inject_Z z.
Proof. apply Qred_correct. Qed.


Lemma ltb_Fin p q : ltb (Fin p) (Fin q) = true <-> this p < this q.
Proof.
  unfold ltb. cbn [cmp]. rewrite Qlt_alt. unfold Qccompare.
  destruct (this p ?= this q); split; congruence.
Qed.

Lemma gtb_Fin p q : gtb (Fin p) (Fin q) = true <-> this q < this p.
Proof.
  unfold gtb. cbn [cmp]. rewrite Qgt_alt. unfold Qccompare.
  destruct (this p ?= this q); split; congruence.
Qed.

Lemma leb_Fin p q : leb (Fin p) (Fin q) = true <-> this p <= this q.
Proof.
  unfold leb. cbn [cmp]. rewrite Qle_alt. unfold Qccompare.
  destruct (this p ?= this q); split; congruence.
Qed.




Lemma ltb_Fin_Z q z : ltb (Fin q) (of_Z z) = true <-> this q < inject_Z z.
Proof. unfold of_Z. now rewrite ltb_Fin, this_inject. Qed.

Lemma gtb_Fin_Z q z : gtb (Fin q) (of_Z z) = true <-> inject_Z z < this q.
Proof. unfold of_Z. now rewrite gtb_Fin, this_inject. Qed.



Lemma leb_Z_Fin z q : leb (of_Z z) (Fin q) = true <-> inject_Z z <= this q.
Proof. unfold of_Z. now rewrite leb_Fin, this_inject. Qed.





End FiniteFacts.

Import FiniteFacts.

(** ** The health status and the share of the month *)

Lemma health_text env st :
  status_text (shown_healthIndicator (updateDashboard env st))
  = status_label
      (health_rule (allowance st) (balance st)
         (dailyBudget (balance st) (remainingDays env))
         (idealDaily st (daysInMonth env))).
Proof.
  unfold updateDashboard, updateHealthIndicator, health_rule.
  cbn [shown_healthIndicator].
  destruct (eqb (allowance st) zero); [reflexivity|].
  destruct (ltb (balance st) zero); [reflexivity|].
  destruct (ltb _ (mul _ half)); [reflexivity|].
  destruct (geb _ _); reflexivity.
Qed.







Lemma month_days env :
  (28 <= days_of_clock_month env <= 31
   /\ 1 <= clock_day env <= days_of_clock_month env)%Z.
Proof.
  split; [|apply clock_day_range].
  apply JsDate.DaysInMonth_range, clock_month_range.
Qed.



(** X10: with an allowance set, the status is Critical exactly when the
    total spent is above the allowance, whatever the day of the month. *)
Theorem critical_iff_overspent (env : Env) (st : State) :
  is_finite (allowance st) = true ->
  eqb (allowance st) zero = false ->
  is_finite (totalSpent st) = true ->
  status_text (shown_healthIndicator (updateDashboard env st))
  = "Health: Critical"
  <-> gtb (totalSpent st) (allowance st) = true.
Proof.
  intros Hfa Hset Hfs. rewrite health_text. unfold health_rule, balance.
  rewrite Hset.
  destruct (allowance st) as [| |a]; try discriminate.
  destruct (totalSpent st) as [| |s]; try discriminate.
  cbn [sub add neg].
  assert (H : ltb (Fin (a + - s)%Qc) zero = true <-> gtb (Fin s) (Fin a) = true).
  { unfold zero. rewrite ltb_Fin_Z, gtb_Fin, this_plus, this_opp.
    change (inject_Z 0) with 0%Q. split; intros; lra. }
  destruct (ltb (Fin (a + - s)%Qc) zero).
  - split; [intros _; now apply H|reflexivity].
  - split; [|intros H'; apply H in H'; discriminate].
    destruct (ltb _ (mul _ half)); [discriminate|].
    destruct (geb _ _); discriminate.
Qed.

Lemma critical_iff_overspent_witness :
  let env := {| now := 1731240000000; tza := 18000000 |} in
  let e := {| id := of_Z 1; amount := of_Z 1200; category := "bills";
              date := "2024-11-09"; note := "" |} in
  let st := {| allowance := of_Z 1000; goal := zero; expenses := [e] |} in
  eqb (allowance st) zero = false
  /\ gtb (totalSpent st) (allowance st) = true
  /\ status_text (shown_healthIndicator (updateDashboard env st))
     = "Health: Critical".
Proof.
  intros env e st. split; [reflexivity|]. split; [reflexivity|].
  exact (proj2 (critical_iff_overspent env st eq_refl eq_refl eq_refl)
           eq_refl).
Defined.





(** ** The savings bar *)







(** ** What every session keeps *)

(** An amount that the forms can have set: above zero. *)
Definition above_zero (n : num) : Prop := gtb n zero = true.

(** A record as the forms build it: the allowance and the goal are zero, as
    at the start, or above zero; every expense has an amount above zero and
    a date. *)
Definition well_formed (st : State) : Prop :=
  (allowance st = zero \/ above_zero (allowance st))
  /\ (goal st = zero \/ above_zero (goal st))
  /\ Forall (fun e => above_zero (amount e) /\ date e <> "") (expenses st).

Lemma handle_well_formed env ev w :
  well_formed (ledger w) -> well_formed (ledger (handle env ev w)).
Proof.
  intros (Ha & Hg & Hes).
  destruct ev as [input|input|a c d n|confirmed i]; cbn [handle].
  - unfold submitAllowance. destruct (gtb _ zero) eqn:E; [|now repeat split].
    repeat split; cbn [saveData ledger allowance goal expenses]; auto.
  - unfold submitGoal. destruct (gtb _ zero) eqn:E; [|now repeat split].
    repeat split; cbn [saveData ledger allowance goal expenses]; auto.
  - unfold submitExpense. destruct (gtb _ zero) eqn:E; [|now repeat split].
    destruct (String.eqb_spec d "") as [->|Hd]; [now repeat split|].
    repeat split; cbn [negb andb saveData ledger allowance goal expenses]; auto.
    apply Forall_app. split; [exact Hes|]. repeat constructor; assumption.
  - unfold deleteExpense. destruct confirmed; [|now repeat split].
    repeat split; cbn [saveData ledger allowance goal expenses]; auto.
    apply Forall_forall. intros e He. apply filter_In in He.
    rewrite Forall_forall in Hes. now apply Hes.
Qed.

Lemma session_well_formed evs : forall w,
  well_formed (ledger w) -> well_formed (ledger (session evs w)).
Proof.
  induction evs as [|[env ev] evs IH]; intros w Hw; [exact Hw|].
  cbn [session fold_left fst snd]. apply IH. now apply handle_well_formed.
Qed.

Lemma add_positive acc a :
  leb zero acc = true -> above_zero a -> leb zero (add acc a) = true.
Proof.
  unfold above_zero.
  destruct acc as [|[]|p]; try discriminate;
    destruct a as [|[]|q]; try discriminate; try reflexivity.
  unfold zero. rewrite !leb_Z_Fin, gtb_Fin_Z. cbn [add].
  rewrite leb_Z_Fin, this_plus. change (inject_Z 0) with 0%Q.
  intros Hp Hq. lra.
Qed.

Lemma total_not_negative es : forall acc,
  leb zero acc = true ->
  Forall (fun e => above_zero (amount e) /\ date e <> "") es ->
  leb zero (fold_left (fun sum exp => add sum (amount exp)) es acc) = true.
Proof.
  induction es as [|e es IH]; intros acc Hacc Hes; [exact Hacc|].
  apply Forall_cons_iff in Hes. destruct Hes as [[He _] Hes].
  cbn [fold_left]. apply IH; [|exact Hes]. now apply add_positive.
Qed.

(** X13: in every session that starts on the zero defaults, the record stays
    as the forms build it: the allowance and the goal are zero or above
    zero, every expense has an amount above zero and a date; and the total
    spent is a number, not below zero. *)
Theorem session_keeps_amounts_positive (evs : list (Env * Event)) :
  let st := ledger (session evs {| ledger := state;
                                   hostelFinanceData := None |}) in
  well_formed st /\ leb zero (totalSpent st) = true.
Proof.
  cbv zeta.
  assert (H : well_formed (ledger (session evs {| ledger := state;
                                                  hostelFinanceData := None |}))).
  { apply session_well_formed. repeat split; auto. }
  split; [exact H|]. destruct H as (_ & _ & Hes).
  now apply total_not_negative.
Qed.

(** X14: outside the year 0, the days left that the dashboard shows are
    from 0 to 30, and 0 exactly on the last day of the month of the clock. *)
Theorem days_left_range (env : Env) (st : State) :
  clock_year env <> 0%Z ->
  (0 <= shown_daysLeft (updateDashboard env st) <= 30)%Z
  /\ (shown_daysLeft (updateDashboard env st) = 0%Z
      <-> clock_day env = days_of_clock_month env).
Proof.
  intros Hy. cbn [updateDashboard shown_daysLeft].
  rewrite (remainingDays_of_clock env Hy).
  pose proof (month_days env). lia.
Qed.

Lemma days_left_range_witness :
  let env := {| now := 1732950000000; tza := 18000000 |} in
  let st := {| allowance := of_Z 1000; goal := zero; expenses := [] |} in
  clock_year env <> 0%Z
  /\ (clock_day env, days_of_clock_month env) = (30, 30)%Z
  /\ shown_daysLeft (updateDashboard env st) = 0%Z.
Proof.
  intros env st.
  assert (Hy : clock_year env <> 0%Z) by (vm_compute; discriminate).
  split; [exact Hy|]. split; [vm_compute; reflexivity|].
  apply (proj2 (days_left_range env st Hy)). vm_compute. reflexivity.
Defined.

(** ** The list that is drawn *)

Lemma In_rendered env st f e :
  In e (renderExpenses env st f) <-> In e (filterExpenses env st f).
Proof.
  unfold renderExpenses. split; apply Permutation_in.
  - apply sort_perm.
  - apply Permutation_sym, sort_perm.
Qed.

(** X15: with any filter that is neither ['today'] nor ['week'], the list
    drawn holds every expense of the record, each as often as the record
    does. *)
Theorem other_filters_draw_everything (env : Env) (st : State)
    (filter : string) :
  filter <> "today" -> filter <> "week" ->
  Permutation (renderExpenses env st filter) (expenses st).
Proof.
  intros Ht Hw. unfold renderExpenses, filterExpenses.
  apply String.eqb_neq in Ht, Hw. rewrite Ht, Hw. apply sort_perm.
Qed.

Lemma other_filters_draw_everything_witness :
  let env := {| now := 1731222000000; tza := 18000000 |} in
  let entry d := {| id := of_Z 1; amount := of_Z 50; category := "food";
                    date := d; note := "" |} in
  let st := {| allowance := of_Z 1000; goal := zero;
               expenses := [entry "2024-01-03"; entry "soon";
                            entry "2024-11-10"] |} in
  "month" <> "today" /\ "month" <> "week"
  /\ Permutation (renderExpenses env st "month") (expenses st).
Proof.
  intros env entry st.
  split; [discriminate|]. split; [discriminate|].
  exact (other_filters_draw_everything env st "month"
           ltac:(discriminate) ltac:(discriminate)).
Defined.





Lemma today_kept env st e :
  In e (filterExpenses env st "today")
  <-> In e (expenses st)
      /\ exists t, JsDate.Date_parse (date e) = Some t
                   /\ JsDate.Day (t + tza env) = JsDate.Day (now env + tza env).
Proof.
  unfold filterExpenses. cbn [String.eqb Ascii.eqb Bool.eqb].
  rewrite filter_In.
  destruct (JsDate.Date_parse (date e)) as [t|].
  - rewrite isSameDay_local_day. split.
    + intros [Hi H]. split; [exact Hi|]. now exists t.
    + intros [Hi (t' & [= <-] & H)]. now split.
  - split; [intros [_ H]; discriminate|intros [_ (t & H & _)]; discriminate].
Qed.

(** X17: what the today view draws, the week view draws too, whatever
    the offset of local time. *)
Theorem today_view_within_week_view (env : Env) (st : State) (e : Expense) :
  In e (renderExpenses env st "today") -> In e (renderExpenses env st "week").
Proof.
  rewrite !In_rendered, today_kept, week_filter_keeps.
  intros [Hi (t & Ht & Hd)]. split; [exact Hi|]. exists t.
  split; [exact Ht|].
  unfold JsDate.Day, JsDate.msPerDay in *. lia.
Qed.

Lemma today_view_within_week_view_witness :
  let env := {| now := 1731222000000; tza := 18000000 |} in
  let e := {| id := of_Z 1; amount := of_Z 50; category := "food";
              date := "2024-11-10"; note := "" |} in
  let st := {| allowance := of_Z 1000; goal := zero; expenses := [e] |} in
  In e (renderExpenses env st "today") /\ In e (renderExpenses env st "week").
Proof.
  intros env e st.
  assert (H : In e (renderExpenses env st "today")) by (vm_compute; auto).
  split; [exact H|]. exact (today_view_within_week_view env st e H).
Defined.

Lemma Date_parse_midnight s t :
  JsDate.Date_parse s = Some t -> t = (JsDate.Day t * JsDate.msPerDay)%Z.
Proof.
  unfold JsDate.Date_parse.
  destruct (JsDate.calendar_date s) as [[[y m] d]|]; [|discriminate].
  intros [= <-]. unfold JsDate.Day, JsDate.msPerDay. lia.
Qed.

(** X18: where local time is at or ahead of UTC, the week view draws every
    expense dated on one of the six days before the local day of the clock,
    on that day, or later; it draws none dated eight days before or earlier;
    and one dated seven days before only while the local time of day is not
    past the offset of local time. *)
Theorem week_view_by_day (env : Env) (st : State) (e : Expense) (t : Z) :
  (0 <= tza env < JsDate.msPerDay)%Z ->
  In e (expenses st) ->
  JsDate.Date_parse (date e) = Some t ->
  let today := JsDate.Day (now env + tza env) in
  let drawn := In e (renderExpenses env st "week") in
  ((today - 6 <= JsDate.Day t)%Z -> drawn)
  /\ ((JsDate.Day t <= today - 8)%Z -> ~ drawn)
  /\ (JsDate.Day t = (today - 7)%Z ->
      (drawn <-> (JsDate.TimeWithinDay (now env + tza env) <= tza env)%Z)).
Proof.
  intros Htz Hi Ht. cbv zeta.
  rewrite In_rendered, week_filter_keeps.
  pose proof (Date_parse_midnight _ _ Ht) as Hm.
  assert (Hiff : (In e (expenses st)
                  /\ exists t', JsDate.Date_parse (date e) = Some t'
                                /\ (now env - 7 * JsDate.msPerDay <= t')%Z)
                 <-> (now env - 7 * JsDate.msPerDay <= t)%Z).
  { split.
    - intros [_ (t' & Ht' & H)]. congruence.
    - intros H. split; [exact Hi|]. now exists t. }
  rewrite Hiff.
  unfold JsDate.Day, JsDate.TimeWithinDay, JsDate.msPerDay in *.
  repeat split; intros; lia.
Qed.

Lemma week_view_by_day_witness :
  let env := {| now := 1731222000000; tza := 18000000 |} in
  let e := {| id := of_Z 1; amount := of_Z 50; category := "food";
              date := "2024-11-04"; note := "" |} in
  let st := {| allowance := of_Z 1000; goal := zero; expenses := [e] |} in
  (0 <= tza env < JsDate.msPerDay)%Z
  /\ In e (expenses st)
  /\ JsDate.Date_parse (date e) = Some 1730678400000%Z
  /\ (JsDate.Day (now env + tza env) - 6 <= JsDate.Day 1730678400000)%Z
  /\ In e (renderExpenses env st "week").
Proof.
  intros env e st.
  assert (Htz : (0 <= tza env < JsDate.msPerDay)%Z) by (vm_compute; split; congruence).
  assert (Hi : In e (expenses st)) by (left; reflexivity).
  assert (Ht : JsDate.Date_parse (date e) = Some 1730678400000%Z)
    by (vm_compute; reflexivity).
  assert (Hd : (JsDate.Day (now env + tza env) - 6
                <= JsDate.Day 1730678400000)%Z) by (vm_compute; congruence).
  split; [exact Htz|]. split; [exact Hi|]. split; [exact Ht|].
  split; [exact Hd|].
  exact (proj1 (week_view_by_day env st e _ Htz Hi Ht) Hd).
Defined.


(** ** The date that the expense form starts with, read back *)

Lemma calendar_date_of_text y m d :
  (1 <= y <= 9999)%Z -> (1 <= m <= 12)%Z ->
  (1 <= d <= JsDate.DaysInMonth y (m - 1))%Z ->
  JsDate.calendar_date (year_digits y ++ "-" ++ two_digits m ++ "-"
                        ++ two_digits d)
  = Some (y, m, d).
Proof.
  intros Hy Hm Hd.
  pose proof (JsDate.DaysInMonth_range y (m - 1) ltac:(lia)) as Hr.
  unfold year_digits. rewrite (proj2 (Z.ltb_lt y 10000)) by lia.
  unfold two_digits. cbn [append]. unfold JsDate.calendar_date.
  unfold JsDate.digits4, JsDate.digits2.
  rewrite !digit_of_digit_char by lia.
  replace (100 * (10 * (y / 100 / 10) + (y / 100) mod 10)
           + (10 * (y mod 100 / 10) + (y mod 100) mod 10))%Z with y by lia.
  replace (10 * (m / 10) + m mod 10)%Z with m by lia.
  replace (10 * (d / 10) + d mod 10)%Z with d by lia.
  unfold JsDate.dash. rewrite !Ascii.eqb_refl.
  repeat match goal with
         | |- context [(?a <=? ?b)%Z] =>
             rewrite (proj2 (Z.leb_le a b)) by lia
         end.
  reflexivity.
Qed.

Lemma valueAsDate_parse t s :
  (JsDate.YearFromDay (JsDate.Day t) <= 9999)%Z ->
  valueAsDate t = Some s ->
  JsDate.Date_parse s = Some (JsDate.Day t * JsDate.msPerDay)%Z.
Proof.
  intros Hy. unfold valueAsDate. cbv zeta.
  destruct (Z.ltb_spec (JsDate.YearFromDay (JsDate.Day t)) 1); [discriminate|].
  intros E.
  assert (Hs : s = year_digits (JsDate.YearFromDay (JsDate.Day t)) ++ "-"
                   ++ two_digits (JsDate.MonthFromDay (JsDate.Day t) + 1)
                   ++ "-" ++ two_digits (JsDate.DateFromDay (JsDate.Day t)))
    by congruence.
  subst s. clear E. unfold JsDate.Date_parse.
  pose proof (JsDate.MonthFromDay_spec (JsDate.Day t)) as [Hm _].
  pose proof (JsDate.DateFromDay_range (JsDate.Day t)) as Hd.
  rewrite calendar_date_of_text;
    [|lia|lia|
     now replace (JsDate.MonthFromDay (JsDate.Day t) + 1 - 1)%Z
       with (JsDate.MonthFromDay (JsDate.Day t)) by lia].
  replace (JsDate.MonthFromDay (JsDate.Day t) + 1 - 1)%Z
    with (JsDate.MonthFromDay (JsDate.Day t)) by lia.
  rewrite JsDate.MakeDay_civil. do 2 f_equal. lia.
Qed.

(** X20: the date that the expense form starts with is the calendar day of
    the clock in UTC, not in local time.  An expense entered with it at once
    is in the today view, east of UTC, only while the local day is still the
    day of UTC; west of UTC, only while the local day is the day before the
    day of UTC. *)
Theorem default_date_is_utc_day (env : Env) (st : State) (e : Expense)
    (s : string) :
  (JsDate.YearFromDay (JsDate.Day (now env)) <= 9999)%Z ->
  defaultDate env = Some s ->
  date e = s ->
  In e (expenses st) ->
  let drawn := In e (renderExpenses env st "today") in
  JsDate.Date_parse s = Some (JsDate.Day (now env) * JsDate.msPerDay)%Z
  /\ ((0 <= tza env < JsDate.msPerDay)%Z ->
      (drawn <-> (JsDate.TimeWithinDay (now env) + tza env
                  < JsDate.msPerDay)%Z))
  /\ ((- JsDate.msPerDay <= tza env < 0)%Z ->
      (drawn <-> (JsDate.TimeWithinDay (now env) + tza env < 0)%Z)).
Proof.
  intros Hy Hs He Hi. cbv zeta.
  pose proof (valueAsDate_parse _ _ Hy Hs) as Hp.
  split; [exact Hp|].
  assert (Hiff : In e (renderExpenses env st "today")
                 <-> JsDate.Day (JsDate.Day (now env) * JsDate.msPerDay
                                 + tza env)
                     = JsDate.Day (now env + tza env)).
  { rewrite In_rendered, today_kept, He, Hp. split.
    - now intros [_ (t & [= <-] & H)].
    - intros H. split; [exact Hi|]. eexists. split; [reflexivity|exact H]. }
  rewrite Hiff.
  unfold JsDate.Day, JsDate.TimeWithinDay, JsDate.msPerDay in *.
  split; intros Htz; split; intros H; lia.
Qed.

Lemma default_date_is_utc_day_witness :
  let env := {| now := 1731186000000; tza := 18000000 |} in
  let e := {| id := of_Z 1; amount := of_Z 50; category := "food";
              date := "2024-11-09"; note := "" |} in
  let st := {| allowance := of_Z 1000; goal := zero; expenses := [e] |} in
  (JsDate.YearFromDay (JsDate.Day (now env)) <= 9999)%Z
  /\ defaultDate env = Some "2024-11-09"
  /\ (clock_year env, clock_month env, clock_day env) = (2024, 10, 10)%Z
  /\ In e (expenses st)
  /\ JsDate.Date_parse "2024-11-09"
     = Some (JsDate.Day (now env) * JsDate.msPerDay)%Z
  /\ renderExpenses env st "today" = [].
Proof.
  intros env e st.
  assert (Hy : (JsDate.YearFromDay (JsDate.Day (now env)) <= 9999)%Z)
    by (vm_compute; congruence).
  assert (Hs : defaultDate env = Some "2024-11-09") by (vm_compute; reflexivity).
  assert (Hi : In e (expenses st)) by (left; reflexivity).
  split; [exact Hy|]. split; [exact Hs|]. split; [vm_compute; reflexivity|].
  split; [exact Hi|]. split; [|vm_compute; reflexivity].
  exact (proj1 (default_date_is_utc_day env st e "2024-11-09" Hy Hs eq_refl Hi)).
Defined.

(** ** The amount that a modal starts with *)

Module FloatFacts.
Import Numeral.










End FloatFacts.

(** The text of a finite number, as a field takes it for its value.  What a
    field makes of an infinity depends on the type of the field, and is left
    out ([None]), as is a rational with no finite decimal expansion. *)
Definition number_text (n : num) : option string :=
  match n with
  | Fin q => Numeral.to_string q
  | _ => None
  end.

(** [x || ''], as the value of a field. *)
Definition prefill (n : num) : option string :=
  if JsNum.truthy n then number_text n else Some "".

(** The click listeners of the two edit buttons: what they write into the
    field of the modal. *)
Definition editAllowance (w : World) : option string :=
  prefill (allowance (ledger w)).

Definition editGoal (w : World) : option string :=
  prefill (goal (ledger w)).



Example reopened_amount_example :
  let w := {| ledger := {| allowance := Fin (Numeral.scale false 12505 (-1));
                           goal := zero; expenses := [] |};
              hostelFinanceData := None |} in
  editAllowance w = Some "1250.5" /\ editGoal w = Some "".
Proof. vm_compute. split; reflexivity. Qed.
